(** * Content bridge: element codec, selection, context menu, analyzer

    A shallow embedding of the content-bridge components
    (content-bridge.tsx, selection-manager.tsx, analyzer-overlay.tsx,
    context-menu-manager.tsx, types/element.ts).

    Conventions of the embedding:
    - JS strings are [string]; [toLowerCase] acts on the ASCII letters, and
      a selector with a character outside ASCII is left to the browser.
    - Pixel quantities and millisecond clocks are [Z]; the eased laser
      position is an exact rational ([Q]) where the browser rounds to a
      double.
    - A live DOM node is an [Element] carrying its node identity; the
      document is the list of its elements in document order.
    - React state is explicit: setters update the component state, and the
      render that follows a callback re-runs exactly the effects whose
      dependency array changed, each in the closure of that render.
    - The browser is a queue of animation-frame callbacks and a queue of
      timers; an event runs the listeners registered for it.
    - Rendered output (portals, styles), console logging and the scroll and
      resize listeners that only refresh a rectangle are left out. *)

From Stdlib Require Import ZArith QArith Qminmax List String Ascii Bool Arith Lia Lqa.
Import ListNotations.
Local Open Scope string_scope.
Local Open Scope list_scope.
Local Open Scope Z_scope.

(* ================================================================== *)
(** ** The DOM as the components see it *)

Record DOMRect := mkRect { top : Z; left : Z; width : Z; height : Z }.

(** [String.prototype.toLowerCase] on ASCII. *)
Definition lower_ascii (c : ascii) : ascii :=
  let n := nat_of_ascii c in
  if andb (Nat.leb 65 n) (Nat.leb n 90) then ascii_of_nat (n + 32) else c.

Fixpoint toLowerCase (s : string) : string :=
  match s with
  | EmptyString => EmptyString
  | String c r => String (lower_ascii c) (toLowerCase r)
  end.

(** The characters of the selectors the model parses. *)
Definition isLetter (c : ascii) : bool :=
  let n := nat_of_ascii c in
  (Nat.leb 65 n && Nat.leb n 90) || (Nat.leb 97 n && Nat.leb n 122).

Definition isDigit (c : ascii) : bool :=
  let n := nat_of_ascii c in Nat.leb 48 n && Nat.leb n 57.

Definition isNameChar (c : ascii) : bool :=
  isLetter c || isDigit c || Ascii.eqb c "-" || Ascii.eqb c "_".

(** CSS white space: space, tab, line feed, form feed, carriage return. *)
Definition isSpace (c : ascii) : bool :=
  let n := nat_of_ascii c in
  Nat.eqb n 32 || Nat.eqb n 9 || Nat.eqb n 10 || Nat.eqb n 12 || Nat.eqb n 13.

Fixpoint all (p : ascii -> bool) (s : string) : bool :=
  match s with
  | EmptyString => true
  | String c r => p c && all p r
  end.

(** A type selector written as a plain identifier: a letter followed by
    letters, digits, hyphens and underscores. *)
Definition isTypeSelector (s : string) : bool :=
  match s with
  | EmptyString => false
  | String c r => isLetter c && all isNameChar r
  end.

(** A live element: [node] is the identity of the node ([===] on elements
    compares it), the other fields are the DOM properties the code reads.
    The elements are HTML elements whose tag name is a plain identifier
    ("H1", "P", "MY-CARD"), so that the lower-cased tag name, used as a
    selector, is a type selector. *)
Record Element := mkElement {
  node : nat;
  tagName : string;
  className : string;
  id : string;
  textContent : option string;
  innerHTML : string;
  outerHTML : string;
  getBoundingClientRect : DOMRect;
  tagName_selects : isTypeSelector (toLowerCase tagName) = true
}.

(** types/element.ts: [SelectedElement]. *)
Record SelectedElement := mkSelected {
  sel_tagName : string;
  sel_className : string;
  sel_id : string;
  sel_textContent : option string;
  sel_innerHTML : string;
  sel_outerHTML : string
}.

(** The outcome of a call that may throw; the one exception of the
    components is the SyntaxError of [document.querySelectorAll]. *)
Inductive Outcome (A : Type) :=
| Returns (a : A)
| Throws.

Arguments Returns {A} a.
Arguments Throws {A}.

(** [selectorEngine] is [document.querySelectorAll] on the selectors the
    model does not parse itself (combinators, classes, attributes,
    pseudo-classes, escapes, characters outside ASCII): the answer of the
    browser, a list of elements or a SyntaxError. *)
Record Dom := mkDom {
  elements : list Element;                  (* document order *)
  elementFromPoint : Z -> Z -> option Element;
  selectorEngine : string -> Outcome (list Element);
  innerWidth : Z;
  innerHeight : Z;
  body_scrollHeight : Z;
  body_offsetHeight : Z;
  documentElement_clientHeight : Z;
  documentElement_scrollHeight : Z;
  documentElement_offsetHeight : Z;
  location_pathname : string;
  location_href : string
}.

(** [a === b] on [string | null]. *)
Definition strict_eq_text (a b : option string) : bool :=
  match a, b with
  | Some x, Some y => String.eqb x y
  | None, None => true
  | _, _ => false
  end.

(** ** Selectors *)

(** A selector list is split at its commas, and each selector is taken
    without the white space around it. *)
Fixpoint splitCommas (s : string) : list string :=
  match s with
  | EmptyString => [EmptyString]
  | String c r =>
      if Ascii.eqb c "," then EmptyString :: splitCommas r
      else match splitCommas r with
           | item :: items => String c item :: items
           | [] => [String c EmptyString]
           end
  end.

Fixpoint trimStart (s : string) : string :=
  match s with
  | EmptyString => EmptyString
  | String c r => if isSpace c then trimStart r else s
  end.

Fixpoint trimEnd (s : string) : string :=
  match s with
  | EmptyString => EmptyString
  | String c r =>
      match trimEnd r with
      | EmptyString => if isSpace c then EmptyString else String c EmptyString
      | r' => String c r'
      end
  end.

Definition trim (s : string) : string := trimEnd (trimStart s).

Definition isUniversal (s : string) : bool := String.eqb s "*".

Definition isEmpty (s : string) : bool := String.eqb s "".

(** What the model makes of a selector: a list of type selectors and
    universal selectors; a selector list with an empty member, which is a
    SyntaxError; or a selector it leaves to the browser. *)
Inductive Parsed :=
| Selectors (items : list string)
| Invalid
| Unparsed.

Definition parseSelector (selector : string) : Parsed :=
  if all (fun c => isNameChar c || isSpace c || Ascii.eqb c "," || Ascii.eqb c "*") selector
  then
    let items := map trim (splitCommas selector) in
    if existsb isEmpty items then Invalid
    else if forallb (fun item => isUniversal item || isTypeSelector item) items
         then Selectors items
         else Unparsed
  else Unparsed.

(** A type selector in a document of HTML elements: the elements whose
    tag name equals the selector up to ASCII case. *)
Definition tagMatches (selector : string) (el : Element) : bool :=
  String.eqb (toLowerCase (tagName el)) (toLowerCase selector).

Definition matchesItem (el : Element) (item : string) : bool :=
  isUniversal item || tagMatches item el.

(** [document.querySelectorAll(selector)]: the elements that match a
    member of the selector list, in document order. *)
Definition querySelectorAll (d : Dom) (selector : string) : Outcome (list Element) :=
  match parseSelector selector with
  | Selectors items =>
      Returns (filter (fun el => existsb (matchesItem el) items) (elements d))
  | Invalid => Throws
  | Unparsed => selectorEngine d selector
  end.

(* ================================================================== *)
(** ** Element codec *)

(** The record built in [handleClick] (selection-manager.tsx) and again in
    [handleMenuAction] (context-menu-manager.tsx). *)
Definition elementData (element : Element) : SelectedElement :=
  {| sel_tagName := tagName element;
     sel_className := className element;
     sel_id := id element;
     sel_textContent := textContent element;
     sel_innerHTML := innerHTML element;
     sel_outerHTML := outerHTML element |}.

(** The predicate handed to [Array.prototype.find] in both resolve effects. *)
Definition sameFields (rec : SelectedElement) (htmlEl : Element) : bool :=
  String.eqb (className htmlEl) (sel_className rec)
  && String.eqb (id htmlEl) (sel_id rec)
  && strict_eq_text (textContent htmlEl) (sel_textContent rec).

(** [Array.from(elements).find(...)] over
    [querySelectorAll(rec.tagName.toLowerCase())]; the call throws when
    [querySelectorAll] does. *)
Definition matchingElement (d : Dom) (rec : SelectedElement) : Outcome (option Element) :=
  match querySelectorAll d (toLowerCase (sel_tagName rec)) with
  | Returns elements => Returns (find (sameFields rec) elements)
  | Throws => Throws
  end.

(** An element the scan for [rec] accepts when the recorded tag name is a
    type selector: right tag, same three fields. *)
Definition candidate (rec : SelectedElement) (el : Element) : bool :=
  tagMatches (sel_tagName rec) el && sameFields rec el.

(* ================================================================== *)
(** ** Bridge transport: the message vocabulary *)

(** [event.data] of a message from the parent, by its [type]. *)
Inductive Inbound :=
| SET_SELECT_MODE (enabled : bool)
| SET_SELECTED_ELEMENT (element : option SelectedElement)
| START_ANALYZER_ANIMATION (targetElement : option SelectedElement)
| OTHER_MESSAGE (type : string).

(** Arguments of [window.parent.postMessage(..., '*')]. *)
Inductive Outbound :=
| ELEMENT_SELECTED (element : option SelectedElement)
| CONTENT_HEIGHT_CHANGED (reported : Z)
| CONTEXT_MENU_ACTION (action scope : string) (selected : SelectedElement)
    (prompt currentFile currentPage : string) (timestamp : Z)
| ANALYZER_ANIMATION_COMPLETE (success : bool).

(* ================================================================== *)
(** ** Analyzer overlay: the async sequence as a script *)

Inductive ScanPhase :=
| down | up | down2 | up2 | target_found | context_enhancing | complete.

Inductive Direction := Up | Down.

(** The calls a run makes on the component: the four state setters and the
    [onComplete] prop. *)
Inductive Action :=
| setScanPhase (p : ScanPhase)
| setLaserPosition (pos : Q)
| setShowTargetFound (b : bool)
| setShowContextEnhancing (b : bool)
| onComplete.

(** The body of an async function, by its suspension points: [await
    animateLaser(...)] suspends until the animation resolves, [setTimeout]
    registers its callback and carries on. *)
Inductive Script :=
| Await_animateLaser (direction : Direction) (duration : Z) (k : Script)
| Do (a : Action) (k : Script)
| SetTimeout (body : Script) (delay : Z) (k : Script)
| Return.

Declare Scope script_scope.
Delimit Scope script_scope with script.
Notation "a >> k" := (Do a k) (at level 60, right associativity) : script_scope.
Notation "'await_animateLaser' ( d , t ) >> k" :=
  (Await_animateLaser d t k) (at level 60, right associativity) : script_scope.

(** analyzer-overlay.tsx, [runAnalyzerSequence], in the closure of a render
    whose [targetElementRef] state is the argument. *)
Definition runAnalyzerSequence (targetElementRef : option Element) : Script :=
  (await_animateLaser (Down, 750) >>
   setScanPhase up >>
   await_animateLaser (Up, 750) >>
   setScanPhase down2 >>
   await_animateLaser (Down, 750) >>
   setScanPhase up2 >>
   await_animateLaser (Up, 750) >>
   setScanPhase target_found >>
   match targetElementRef with
   | Some _ =>
       setShowTargetFound true >>
       SetTimeout
         (setScanPhase context_enhancing >>
          setShowTargetFound false >>
          setShowContextEnhancing true >>
          SetTimeout
            (setShowContextEnhancing false >>
             setScanPhase complete >>
             onComplete >> Return)
            1500 Return)
         1000 Return
   | None =>
       setScanPhase complete >>
       onComplete >> Return
   end)%script.

(** Callbacks waiting in the browser: an [animate] closure handed to
    [requestAnimationFrame] (with the continuation its [resolve] resumes), a
    [setTimeout] callback of a run, and the height reporter's timeout. *)
Inductive Task :=
| animate (run : nat) (startPos endPos duration startTime : Z) (resolve : Script)
| timeout (run : nat) (body : Script)
| sendHeight_timeout.

(* ================================================================== *)
(** ** Component state *)

(** A record received in a message: [oid] is the identity of the object
    ([Object.is] in dependency arrays and in [setState] bail-out). *)
Record Obj := mkObj { oid : nat; value : SelectedElement }.

(** content-bridge.tsx: the four [useState] cells of [ContentBridge]. *)
Record BridgeState := mkBridge {
  isSelectMode : bool;
  selectedElement : option Obj;
  isAnalyzing : bool;
  analyzerTarget : option Obj
}.

(** selection-manager.tsx: [SelectionManager]. *)
Record SelectionState := mkSelection {
  hoveredElement : option Element;
  selectedElementRef : option Element
}.

(** analyzer-overlay.tsx: [AnalyzerOverlay]. *)
Record AnalyzerState := mkAnalyzer {
  scanPhase : ScanPhase;
  laserPosition : Q;
  showTargetFound : bool;
  showContextEnhancing : bool;
  targetElementRef : option Element
}.

(** context-menu-manager.tsx: [ContextMenuManager]. *)
Record MenuState := mkMenu {
  contextMenuElement : option Element;
  contextMenuOpen : bool;
  menuPosition : Z * Z;
  highlightRect : option DOMRect
}.

(** The values the dependency arrays held at the last render. *)
Record Deps := mkDeps {
  dep_isSelectMode : bool;
  dep_hoveredElement : option nat;
  dep_selectedElement : option nat;
  dep_targetElement : option nat;
  dep_isActive : bool;
  dep_targetElementRef : option nat;
  dep_onComplete : nat;
  dep_contextMenuElement : option nat
}.

Record World := mkWorld {
  dom : Dom;
  clock : Z;                          (* Date.now() *)
  bridge : BridgeState;
  bridgeDirty : bool;                 (* ContentBridge state changed since its render *)
  renders : nat;                      (* renders of ContentBridge: identity of its closures *)
  selection : SelectionState;
  analyzer : AnalyzerState;
  menu : MenuState;
  committed : Deps;
  frameQueue : list Task;             (* requestAnimationFrame, in registration order *)
  timerQueue : list (Z * Task);       (* setTimeout, by due time *)
  outbox : list Outbound;             (* postMessage to the parent, oldest first *)
  history : list (nat * Action);      (* calls made by analyzer runs, oldest first *)
  nextRun : nat;
  nextObj : nat;
  defaultPrevented : bool;            (* of the event being dispatched *)
  propagationStopped : bool;
  failed : bool                       (* an effect has thrown: the tree is removed *)
}.

Definition Cmd := World -> World.

Definition andThen (c1 c2 : Cmd) : Cmd := fun w => c2 (c1 w).
Definition skip : Cmd := fun w => w.

Declare Scope cmd_scope.
Delimit Scope cmd_scope with cmd.
Notation "c1 ;; c2" := (andThen c1 c2) (at level 61, right associativity) : cmd_scope.

Definition set_clock (v : Z) : Cmd := fun w =>
  mkWorld (dom w) v (bridge w) (bridgeDirty w) (renders w) (selection w) (analyzer w)
    (menu w) (committed w) (frameQueue w) (timerQueue w) (outbox w) (history w)
    (nextRun w) (nextObj w) (defaultPrevented w) (propagationStopped w) (failed w).
Definition set_bridge (v : BridgeState) (d : bool) : Cmd := fun w =>
  mkWorld (dom w) (clock w) v d (renders w) (selection w) (analyzer w)
    (menu w) (committed w) (frameQueue w) (timerQueue w) (outbox w) (history w)
    (nextRun w) (nextObj w) (defaultPrevented w) (propagationStopped w) (failed w).
Definition set_renders (v : nat) : Cmd := fun w =>
  mkWorld (dom w) (clock w) (bridge w) (bridgeDirty w) v (selection w) (analyzer w)
    (menu w) (committed w) (frameQueue w) (timerQueue w) (outbox w) (history w)
    (nextRun w) (nextObj w) (defaultPrevented w) (propagationStopped w) (failed w).
Definition set_selection (v : SelectionState) : Cmd := fun w =>
  mkWorld (dom w) (clock w) (bridge w) (bridgeDirty w) (renders w) v (analyzer w)
    (menu w) (committed w) (frameQueue w) (timerQueue w) (outbox w) (history w)
    (nextRun w) (nextObj w) (defaultPrevented w) (propagationStopped w) (failed w).
Definition set_analyzer (v : AnalyzerState) : Cmd := fun w =>
  mkWorld (dom w) (clock w) (bridge w) (bridgeDirty w) (renders w) (selection w) v
    (menu w) (committed w) (frameQueue w) (timerQueue w) (outbox w) (history w)
    (nextRun w) (nextObj w) (defaultPrevented w) (propagationStopped w) (failed w).
Definition set_menu (v : MenuState) : Cmd := fun w =>
  mkWorld (dom w) (clock w) (bridge w) (bridgeDirty w) (renders w) (selection w) (analyzer w)
    v (committed w) (frameQueue w) (timerQueue w) (outbox w) (history w)
    (nextRun w) (nextObj w) (defaultPrevented w) (propagationStopped w) (failed w).
Definition set_committed (v : Deps) : Cmd := fun w =>
  mkWorld (dom w) (clock w) (bridge w) (bridgeDirty w) (renders w) (selection w) (analyzer w)
    (menu w) v (frameQueue w) (timerQueue w) (outbox w) (history w)
    (nextRun w) (nextObj w) (defaultPrevented w) (propagationStopped w) (failed w).
Definition set_frameQueue (v : list Task) : Cmd := fun w =>
  mkWorld (dom w) (clock w) (bridge w) (bridgeDirty w) (renders w) (selection w) (analyzer w)
    (menu w) (committed w) v (timerQueue w) (outbox w) (history w)
    (nextRun w) (nextObj w) (defaultPrevented w) (propagationStopped w) (failed w).
Definition set_timerQueue (v : list (Z * Task)) : Cmd := fun w =>
  mkWorld (dom w) (clock w) (bridge w) (bridgeDirty w) (renders w) (selection w) (analyzer w)
    (menu w) (committed w) (frameQueue w) v (outbox w) (history w)
    (nextRun w) (nextObj w) (defaultPrevented w) (propagationStopped w) (failed w).
Definition set_outbox (v : list Outbound) : Cmd := fun w =>
  mkWorld (dom w) (clock w) (bridge w) (bridgeDirty w) (renders w) (selection w) (analyzer w)
    (menu w) (committed w) (frameQueue w) (timerQueue w) v (history w)
    (nextRun w) (nextObj w) (defaultPrevented w) (propagationStopped w) (failed w).
Definition set_history (v : list (nat * Action)) : Cmd := fun w =>
  mkWorld (dom w) (clock w) (bridge w) (bridgeDirty w) (renders w) (selection w) (analyzer w)
    (menu w) (committed w) (frameQueue w) (timerQueue w) (outbox w) v
    (nextRun w) (nextObj w) (defaultPrevented w) (propagationStopped w) (failed w).
Definition set_nextRun (v : nat) : Cmd := fun w =>
  mkWorld (dom w) (clock w) (bridge w) (bridgeDirty w) (renders w) (selection w) (analyzer w)
    (menu w) (committed w) (frameQueue w) (timerQueue w) (outbox w) (history w)
    v (nextObj w) (defaultPrevented w) (propagationStopped w) (failed w).
Definition set_nextObj (v : nat) : Cmd := fun w =>
  mkWorld (dom w) (clock w) (bridge w) (bridgeDirty w) (renders w) (selection w) (analyzer w)
    (menu w) (committed w) (frameQueue w) (timerQueue w) (outbox w) (history w)
    (nextRun w) v (defaultPrevented w) (propagationStopped w) (failed w).
Definition set_flags (prevented stopped : bool) : Cmd := fun w =>
  mkWorld (dom w) (clock w) (bridge w) (bridgeDirty w) (renders w) (selection w) (analyzer w)
    (menu w) (committed w) (frameQueue w) (timerQueue w) (outbox w) (history w)
    (nextRun w) (nextObj w) prevented stopped (failed w).
Definition set_failed (v : bool) : Cmd := fun w =>
  mkWorld (dom w) (clock w) (bridge w) (bridgeDirty w) (renders w) (selection w) (analyzer w)
    (menu w) (committed w) (frameQueue w) (timerQueue w) (outbox w) (history w)
    (nextRun w) (nextObj w) (defaultPrevented w) (propagationStopped w) v.

(* ================================================================== *)
(** ** Browser and React primitives *)

Definition same_id (a b : option nat) : bool :=
  match a, b with
  | Some x, Some y => Nat.eqb x y
  | None, None => true
  | _, _ => false
  end.

(** [a === b] on [HTMLElement | null]. *)
Definition same_node (a b : option Element) : bool :=
  same_id (option_map node a) (option_map node b).

(** [Object.is] on [SelectedElement | null] values held in state. *)
Definition same_obj (a b : option Obj) : bool :=
  same_id (option_map oid a) (option_map oid b).

Definition postMessage (m : Outbound) : Cmd := fun w =>
  set_outbox (outbox w ++ [m]) w.

Definition requestAnimationFrame (t : Task) : Cmd := fun w =>
  set_frameQueue (frameQueue w ++ [t]) w.

(** Timers fire by due time, and in registration order among equal ones. *)
Fixpoint insertTimer (due : Z) (t : Task) (q : list (Z * Task)) : list (Z * Task) :=
  match q with
  | [] => [(due, t)]
  | (d, t') :: rest =>
      if d <=? due then (d, t') :: insertTimer due t rest
      else (due, t) :: q
  end.

Definition setTimeout (t : Task) (delay : Z) : Cmd := fun w =>
  set_timerQueue (insertTimer (clock w + delay) t (timerQueue w)) w.

Definition preventDefault : Cmd := fun w => set_flags true (propagationStopped w) w.
Definition stopPropagation : Cmd := fun w => set_flags (defaultPrevented w) true w.

(** An exception that leaves an effect is caught by no component: React
    records it, and removes the tree when the commit is over. *)
Definition uncaught : Cmd := set_failed true.

(** What no longer happens once an effect has thrown. *)
Definition unlessFailed (c : Cmd) : Cmd := fun w => if failed w then w else c w.

Definition throws {A} (o : Outcome A) : bool :=
  match o with Throws => true | Returns _ => false end.

(* ================================================================== *)
(** ** content-bridge.tsx *)

(** The [useState] setters; a value that [Object.is] the current one does
    not schedule a render. *)
Definition setIsSelectMode (v : bool) : Cmd := fun w =>
  let b := bridge w in
  set_bridge (mkBridge v (selectedElement b) (isAnalyzing b) (analyzerTarget b))
             (bridgeDirty w || negb (Bool.eqb (isSelectMode b) v)) w.

Definition setSelectedElement (v : option Obj) : Cmd := fun w =>
  let b := bridge w in
  set_bridge (mkBridge (isSelectMode b) v (isAnalyzing b) (analyzerTarget b))
             (bridgeDirty w || negb (same_obj (selectedElement b) v)) w.

Definition setIsAnalyzing (v : bool) : Cmd := fun w =>
  let b := bridge w in
  set_bridge (mkBridge (isSelectMode b) (selectedElement b) v (analyzerTarget b))
             (bridgeDirty w || negb (Bool.eqb (isAnalyzing b) v)) w.

Definition setAnalyzerTarget (v : option Obj) : Cmd := fun w =>
  let b := bridge w in
  set_bridge (mkBridge (isSelectMode b) (selectedElement b) (isAnalyzing b) v)
             (bridgeDirty w || negb (same_obj (analyzerTarget b) v)) w.

(** The payload object of a delivered message is a fresh object. *)
Definition received (payload : option SelectedElement) (k : option Obj -> Cmd) : Cmd :=
  fun w => k (option_map (mkObj (nextObj w)) payload) (set_nextObj (S (nextObj w)) w).

Definition handleMessage (data : Inbound) : Cmd :=
  match data with
  | SET_SELECT_MODE enabled => setIsSelectMode enabled
  | SET_SELECTED_ELEMENT element => received element setSelectedElement
  | START_ANALYZER_ANIMATION targetElement =>
      (setIsAnalyzing true ;; received targetElement setAnalyzerTarget)%cmd
  | OTHER_MESSAGE _ => skip
  end.

(** [Math.max] over the five measurements of the document. *)
Definition measuredHeight (d : Dom) : Z :=
  Z.max (body_scrollHeight d)
    (Z.max (body_offsetHeight d)
       (Z.max (documentElement_clientHeight d)
          (Z.max (documentElement_scrollHeight d)
             (documentElement_offsetHeight d)))).

(** The callback of the 100 ms timeout in [measureAndSendHeight]. *)
Definition sendHeight : Cmd := fun w =>
  let measuredHeight := measuredHeight (dom w) in
  let contentHeight := Z.min measuredHeight 6400 in
  postMessage (CONTENT_HEIGHT_CHANGED (Z.max contentHeight 800)) w.

Definition measureAndSendHeight : Cmd := setTimeout sendHeight_timeout 100.

Definition handleElementSelect (elementData : option SelectedElement) : Cmd :=
  postMessage (ELEMENT_SELECTED elementData).

Definition handleAnalyzerComplete : Cmd :=
  (setIsAnalyzing false ;;
   setAnalyzerTarget None ;;
   postMessage (ANALYZER_ANIMATION_COMPLETE true))%cmd.

(* ================================================================== *)
(** ** selection-manager.tsx *)

Definition setHoveredElement (v : option Element) : Cmd := fun w =>
  set_selection (mkSelection v (selectedElementRef (selection w))) w.

Definition setSelectedElementRef (v : option Element) : Cmd := fun w =>
  set_selection (mkSelection (hoveredElement (selection w)) v) w.

Definition handleMouseMove (clientX clientY : Z) : Cmd := fun w =>
  match elementFromPoint (dom w) clientX clientY with
  | Some element =>
      if negb (same_node (Some element) (hoveredElement (selection w)))
      then setHoveredElement (Some element) w
      else w
  | None => w
  end.

Definition handleClick (clientX clientY : Z) : Cmd := fun w =>
  match elementFromPoint (dom w) clientX clientY with
  | Some element =>
      (handleElementSelect (Some (elementData element)) ;;
       preventDefault ;;
       stopPropagation)%cmd w
  | None => w
  end.

Definition handleKeyDown (key : string) : Cmd :=
  if String.eqb key "Escape" then
    (setHoveredElement None ;;
     handleElementSelect None)%cmd
  else skip.

(** First effect, deps [[isSelectMode, hoveredElement]]; when select mode is
    on it (re)registers the mousemove listener. *)
Definition hoverEffect (isSelectMode : bool) : Cmd :=
  if negb isSelectMode then setHoveredElement None else skip.

(** Last effect, deps [[selectedElement]]. *)
Definition selectionResolveEffect (selectedElement : option Obj) : Cmd := fun w =>
  match selectedElement with
  | None => setSelectedElementRef None w
  | Some o =>
      match matchingElement (dom w) (value o) with
      | Returns matching => setSelectedElementRef matching w
      | Throws => uncaught w
      end
  end.

(* ================================================================== *)
(** ** context-menu-manager.tsx *)

Definition setContextMenuElement (v : option Element) : Cmd := fun w =>
  let m := menu w in
  set_menu (mkMenu v (contextMenuOpen m) (menuPosition m) (highlightRect m)) w.
Definition setContextMenuOpen (v : bool) : Cmd := fun w =>
  let m := menu w in
  set_menu (mkMenu (contextMenuElement m) v (menuPosition m) (highlightRect m)) w.
Definition setMenuPosition (v : Z * Z) : Cmd := fun w =>
  let m := menu w in
  set_menu (mkMenu (contextMenuElement m) (contextMenuOpen m) v (highlightRect m)) w.
Definition setHighlightRect (v : option DOMRect) : Cmd := fun w =>
  let m := menu w in
  set_menu (mkMenu (contextMenuElement m) (contextMenuOpen m) (menuPosition m) v) w.

Definition menuWidth : Z := 220.
Definition menuHeight : Z := 130.

Definition handleContextMenu (clientX clientY : Z) : Cmd :=
  (preventDefault ;;
   fun w =>
     match elementFromPoint (dom w) clientX clientY with
     | Some element =>
         let rect := getBoundingClientRect element in
         let x := clientX in
         let y := clientY in
         let x := if x + menuWidth >? innerWidth (dom w)
                  then innerWidth (dom w) - menuWidth - 10 else x in
         let y := if y + menuHeight >? innerHeight (dom w)
                  then innerHeight (dom w) - menuHeight - 10 else y in
         (setContextMenuElement (Some element) ;;
          setHighlightRect (Some rect) ;;
          setMenuPosition (x, y) ;;
          setContextMenuOpen true) w
     | None => w
     end)%cmd.

Definition closeMenu : Cmd :=
  (setContextMenuOpen false ;;
   setContextMenuElement None ;;
   setHighlightRect None)%cmd.

(** Registered for click and contextmenu while the menu is open, when
    [menuRef.current] is the rendered menu; [targetInMenu] is
    [menuRef.current.contains(e.target)]. *)
Definition handleClickOutside (targetInMenu : bool) : Cmd :=
  if negb targetInMenu then closeMenu else skip.

Definition handleEscape (key : string) : Cmd :=
  if String.eqb key "Escape" then closeMenu else skip.

Definition includes (needle s : string) : bool :=
  match String.index 0 needle s with Some _ => true | None => false end.

Definition quote : string := String (ascii_of_nat 34) EmptyString.

Definition generatePrompt (d : Dom) (action : string) : string :=
  let currentPath := location_pathname d in
  let isComponentContext := includes "/components/" currentPath in
  let toolType := if isComponentContext then "@create_component" else "@create_page" in
  (if String.eqb action "Extract Element" then
     "Please " ++ toolType ++ " with the selected element."
   else if String.eqb action "Generate Variants" then
     "Please create 3 variants of selected element using " ++ toolType
   else
     "Please perform " ++ quote ++ action ++ quote ++ " on the selected element.")%string.

Definition handleMenuAction (action scope : string) : Cmd := fun w =>
  match contextMenuElement (menu w) with
  | None => w
  | Some el =>
      let prompt := generatePrompt (dom w) action in
      (postMessage (CONTEXT_MENU_ACTION action scope (elementData el) prompt
                      (location_pathname (dom w)) (location_href (dom w)) (clock w)) ;;
       closeMenu)%cmd w
  end.

(** First effect, deps [[contextMenuElement]]: [updateHighlight()]. *)
Definition highlightEffect (contextMenuElement : option Element) : Cmd :=
  match contextMenuElement with
  | None => skip
  | Some el => setHighlightRect (Some (getBoundingClientRect el))
  end.

(* ================================================================== *)
(** ** analyzer-overlay.tsx *)

(** One call of a run on the component, recorded in [history]. *)
Definition perform (run : nat) (a : Action) : Cmd := fun w =>
  let s := analyzer w in
  let w := set_history (history w ++ [(run, a)]) w in
  match a with
  | setScanPhase p =>
      set_analyzer (mkAnalyzer p (laserPosition s) (showTargetFound s)
                      (showContextEnhancing s) (targetElementRef s)) w
  | setLaserPosition pos =>
      set_analyzer (mkAnalyzer (scanPhase s) pos (showTargetFound s)
                      (showContextEnhancing s) (targetElementRef s)) w
  | setShowTargetFound b =>
      set_analyzer (mkAnalyzer (scanPhase s) (laserPosition s) b
                      (showContextEnhancing s) (targetElementRef s)) w
  | setShowContextEnhancing b =>
      set_analyzer (mkAnalyzer (scanPhase s) (laserPosition s) (showTargetFound s)
                      b (targetElementRef s)) w
  | onComplete => handleAnalyzerComplete w
  end.

Definition setTargetElementRef (v : option Element) : Cmd := fun w =>
  let s := analyzer w in
  set_analyzer (mkAnalyzer (scanPhase s) (laserPosition s) (showTargetFound s)
                  (showContextEnhancing s) v) w.

(** [animateLaser]: the promise executor reads the clock and the viewport
    and requests the first frame; [resolve] resumes the awaiting script. *)
Definition animateLaser (run : nat) (direction : Direction) (duration : Z)
    (resolve : Script) : Cmd := fun w =>
  let startTime := clock w in
  let startPos := match direction with Down => 0 | Up => innerHeight (dom w) end in
  let endPos := match direction with Down => innerHeight (dom w) | Up => 0 end in
  requestAnimationFrame (animate run startPos endPos duration startTime resolve) w.

(** Run a script up to its next suspension point. *)
Fixpoint exec (run : nat) (s : Script) : Cmd :=
  match s with
  | Await_animateLaser direction duration k => animateLaser run direction duration k
  | Do a k => (perform run a ;; exec run k)%cmd
  | SetTimeout body delay k => (setTimeout (timeout run body) delay ;; exec run k)%cmd
  | Return => skip
  end.

(** The [animate] closure of [animateLaser], called for a frame. *)
Definition animateFrame (run : nat) (startPos endPos duration startTime : Z)
    (resolve : Script) : Cmd := fun w =>
  let elapsed := clock w - startTime in
  let progress := Qmin (inject_Z elapsed / inject_Z duration) 1 in
  let easeProgress := (1 - (1 - progress) ^ 3)%Q in
  let w := perform run (setLaserPosition
             (inject_Z startPos + (inject_Z endPos - inject_Z startPos) * easeProgress)%Q) w in
  if negb (Qle_bool 1 progress)
  then requestAnimationFrame (animate run startPos endPos duration startTime resolve) w
  else exec run resolve w.

Definition runTask (t : Task) : Cmd :=
  match t with
  | animate run startPos endPos duration startTime resolve =>
      animateFrame run startPos endPos duration startTime resolve
  | timeout run body => exec run body
  | sendHeight_timeout => sendHeight
  end.

(** First effect, deps [[targetElement]]. *)
Definition analyzerResolveEffect (targetElement : option Obj) : Cmd := fun w =>
  match targetElement with
  | None => setTargetElementRef None w
  | Some o =>
      match matchingElement (dom w) (value o) with
      | Returns matching => setTargetElementRef matching w
      | Throws => uncaught w
      end
  end.

(** Whether the first effect throws for a target. *)
Definition resolveThrows (d : Dom) (targetElement : option Obj) : bool :=
  match targetElement with
  | None => false
  | Some o => throws (matchingElement d (value o))
  end.

(** Second effect, deps [[isActive, targetElementRef, onComplete]]: it
    starts a run in the closure of the render and returns no cleanup. *)
Definition sequenceEffect (isActive : bool) (targetElementRef : option Element) : Cmd :=
  if negb isActive then skip
  else fun w =>
    exec (nextRun w) (runAnalyzerSequence targetElementRef) (set_nextRun (S (nextRun w)) w).

(* ================================================================== *)
(** ** Rendering *)

Definition depsOf (w : World) : Deps :=
  {| dep_isSelectMode := isSelectMode (bridge w);
     dep_hoveredElement := option_map node (hoveredElement (selection w));
     dep_selectedElement := option_map oid (selectedElement (bridge w));
     dep_targetElement := option_map oid (analyzerTarget (bridge w));
     dep_isActive := isAnalyzing (bridge w);
     dep_targetElementRef := option_map node (targetElementRef (analyzer w));
     dep_onComplete := renders w;
     dep_contextMenuElement := option_map node (contextMenuElement (menu w)) |}.

Definition hoverDepsSame (a b : Deps) : bool :=
  Bool.eqb (dep_isSelectMode a) (dep_isSelectMode b)
  && same_id (dep_hoveredElement a) (dep_hoveredElement b).

Definition sequenceDepsSame (a b : Deps) : bool :=
  Bool.eqb (dep_isActive a) (dep_isActive b)
  && same_id (dep_targetElementRef a) (dep_targetElementRef b)
  && Nat.eqb (dep_onComplete a) (dep_onComplete b).

Definition when (b : bool) (c : Cmd) : Cmd := if b then c else skip.

(** [ContentBridge] renders when one of its state cells changed; its
    handlers are then new closures. *)
Definition renderBridge : Cmd := fun w =>
  if bridgeDirty w then set_renders (S (renders w)) (set_bridge (bridge w) false w) else w.

(** One render of the three children with the current props and state,
    followed by the effects whose dependencies differ from the last render,
    each in the closure of this render. An effect that throws ends the
    effects of its own component for this commit (the sequence effect is
    not run after a resolve effect that threw); the components after it
    still run theirs. *)
Definition renderChildren : Cmd := fun w =>
  let old := committed w in
  let new := depsOf w in
  let b := bridge w in
  let targetChanged := negb (same_id (dep_targetElement old) (dep_targetElement new)) in
  (set_committed new ;;
   when (negb (hoverDepsSame old new)) (hoverEffect (isSelectMode b)) ;;
   when (negb (same_id (dep_selectedElement old) (dep_selectedElement new)))
        (selectionResolveEffect (selectedElement b)) ;;
   when targetChanged (analyzerResolveEffect (analyzerTarget b)) ;;
   when (negb (sequenceDepsSame old new)
         && negb (targetChanged && resolveThrows (dom w) (analyzerTarget b)))
        (sequenceEffect (isAnalyzing b) (targetElementRef (analyzer w))) ;;
   when (negb (same_id (dep_contextMenuElement old) (dep_contextMenuElement new)))
        (highlightEffect (contextMenuElement (menu w))))%cmd w.

(** State set during a task is rendered after it; state set by effects is
    rendered once more. Once an effect has thrown the tree is removed and
    nothing renders any more. *)
Definition flush : Cmd :=
  unlessFailed (renderBridge ;; renderChildren ;; unlessFailed renderChildren)%cmd.

Definition task (c : Cmd) : Cmd := (c ;; flush)%cmd.

(* ================================================================== *)
(** ** Events *)

Inductive Target :=
| MenuButton (action : string)    (* a button of the open menu *)
| MenuBox                         (* elsewhere inside the menu *)
| Page.

Definition inMenu (t : Target) : bool :=
  match t with Page => false | _ => true end.

Inductive Event :=
| EvMessage (data : Inbound)
| EvMouseMove (clientX clientY : Z)
| EvClick (clientX clientY : Z) (target : Target)
| EvKeyDown (key : string)
| EvContextMenu (clientX clientY : Z) (target : Target)
| EvResize                        (* ResizeObserver callback *)
| EvAnimationFrame (now : Z)
| EvTimers (now : Z).

(** The listeners registered at the time of the event, in the order the
    browser calls them; the state they set is rendered after the event. *)
Definition dispatch (e : Event) : Cmd := fun w0 =>
  let w := set_flags false false w0 in
  let selecting := isSelectMode (bridge w) in
  let menuOpen := contextMenuOpen (menu w) in
  match e with
  | EvMessage data => task (handleMessage data) w
  | EvMouseMove x y => task (when selecting (handleMouseMove x y)) w
  | EvClick x y target =>
      task (when selecting (handleClick x y) ;;
            fun w' =>
              if propagationStopped w' then w'
              else (match target with
                    | MenuButton action => when menuOpen (handleMenuAction action "element")
                    | _ => skip
                    end ;;
                    when menuOpen (handleClickOutside (inMenu target)))%cmd w')%cmd w
  | EvKeyDown key =>
      task (when selecting (handleKeyDown key) ;;
            when menuOpen (handleEscape key))%cmd w
  | EvContextMenu x y target =>
      task (handleContextMenu x y ;;
            when menuOpen (handleClickOutside (inMenu target)))%cmd w
  | EvResize => task measureAndSendHeight w
  | EvAnimationFrame now =>
      let w := set_clock (Z.max (clock w) now) w in
      fold_left (fun acc t => task (runTask t) acc) (frameQueue w) (set_frameQueue [] w)
  | EvTimers now =>
      let w := set_clock (Z.max (clock w) now) w in
      let due := filter (fun p => fst p <=? clock w) (timerQueue w) in
      let later := filter (fun p => negb (fst p <=? clock w)) (timerQueue w) in
      fold_left (fun acc p => task (runTask (snd p)) acc) due (set_timerQueue later w)
  end.

(** When the tree has been removed its listeners and its observer are
    gone with it; the callbacks already handed to the browser, animation
    frames and timers, are still called, and render nothing. *)
Definition orphaned (e : Event) : Cmd :=
  match e with
  | EvAnimationFrame _ | EvTimers _ => dispatch e
  | _ => skip
  end.

Definition step (e : Event) : Cmd := fun w =>
  if failed w then orphaned e w else dispatch e w.

Definition run (w : World) (events : list Event) : World :=
  fold_left (fun acc e => step e acc) events w.

(** The world after [ContentBridge] is mounted in document [d]: initial
    state everywhere, the mount effects done (they leave the state as it
    is), and the first height measurement pending. *)
Definition mount (d : Dom) : World :=
  let w :=
    {| dom := d; clock := 0;
       bridge := mkBridge false None false None;
       bridgeDirty := false; renders := 0%nat;
       selection := mkSelection None None;
       analyzer := mkAnalyzer down 0%Q false false None;
       menu := mkMenu None false (0, 0) None;
       committed := mkDeps false None None None false None 0%nat None;
       frameQueue := []; timerQueue := [];
       outbox := []; history := [];
       nextRun := 0%nat; nextObj := 0%nat;
       defaultPrevented := false; propagationStopped := false;
       failed := false |} in
  measureAndSendHeight w.

(* ================================================================== *)
(** ** Observations *)

Fixpoint phaseCalls (h : list (nat * Action)) : list ScanPhase :=
  match h with
  | [] => []
  | (_, setScanPhase p) :: r => p :: phaseCalls r
  | _ :: r => phaseCalls r
  end.

Fixpoint onCompleteCalls (h : list (nat * Action)) : list nat :=
  match h with
  | [] => []
  | (r, onComplete) :: t => r :: onCompleteCalls t
  | _ :: t => onCompleteCalls t
  end.


Definition isCompletion (m : Outbound) : bool :=
  match m with ANALYZER_ANIMATION_COMPLETE _ => true | _ => false end.

Definition completions (out : list Outbound) : nat :=
  List.length (filter isCompletion out).

(* ================================================================== *)
(** ** Properties used in the statements *)

(** The render that follows a task has happened, and no effect threw: the
    dependency arrays hold the current values and no [ContentBridge] update
    is pending. *)
Definition settled (w : World) : Prop :=
  committed w = depsOf w /\ bridgeDirty w = false /\ failed w = false.


(** [h] clamped to the interval from [lo] to [hi]. *)
Definition clamp (lo hi h : Z) : Z :=
  if h <? lo then lo else if hi <? h then hi else h.

(** The menu box of nominal size placed at [pos] lies inside the viewport. *)
Definition menuInsideViewport (d : Dom) (pos : Z * Z) : Prop :=
  0 <= fst pos /\ fst pos + menuWidth <= innerWidth d
  /\ 0 <= snd pos /\ snd pos + menuHeight <= innerHeight d.

(** A completion message that reports success. *)
Definition reportsSuccess (m : Outbound) : Prop :=
  match m with
  | ANALYZER_ANIMATION_COMPLETE success => success = true
  | _ => True
  end.




(** What a render leaves alone. *)
Definition untouched (w w' : World) : Prop :=
  dom w' = dom w /\ clock w' = clock w /\ bridge w' = bridge w
  /\ outbox w' = outbox w /\ history w' = history w
  /\ timerQueue w' = timerQueue w /\ nextObj w' = nextObj w
  /\ defaultPrevented w' = defaultPrevented w
  /\ propagationStopped w' = propagationStopped w
  /\ contextMenuElement (menu w') = contextMenuElement (menu w)
  /\ contextMenuOpen (menu w') = contextMenuOpen (menu w)
  /\ menuPosition (menu w') = menuPosition (menu w)
  /\ scanPhase (analyzer w') = scanPhase (analyzer w)
  /\ laserPosition (analyzer w') = laserPosition (analyzer w)
  /\ showTargetFound (analyzer w') = showTargetFound (analyzer w)
  /\ showContextEnhancing (analyzer w') = showContextEnhancing (analyzer w)
  /\ exists started, frameQueue w' = frameQueue w ++ started.

(** A command that touches no more than a render does. *)
Definition gentle (c : Cmd) : Prop := forall w, untouched w (c w).

(** A command that posts nothing but messages that report success. *)
Definition posts (c : Cmd) : Prop :=
  forall w, exists ms, outbox (c w) = outbox w ++ ms /\ Forall reportsSuccess ms.

(** The script an awaiting run resumes at its next suspension point, and
    the script it resumes when the [n]-th of its sweeps resolves. *)
Fixpoint nextAwait (s : Script) : Script :=
  match s with
  | Await_animateLaser _ _ k => k
  | Do _ k => nextAwait k
  | SetTimeout _ _ k => nextAwait k
  | Return => Return
  end.

Fixpoint resumeAfter (n : nat) (s : Script) : Script :=
  match n with
  | O => s
  | S m => nextAwait (resumeAfter m s)
  end.


(** A command that keeps a property of the state. *)
Definition keeps (I : World -> Prop) (c : Cmd) : Prop := forall w, I w -> I (c w).

(** The objects held in the bridge state were received before the next
    message: a payload still to come is a different object. *)
Definition fresh (w : World) : Prop :=
  (forall o, selectedElement (bridge w) = Some o -> (oid o < nextObj w)%nat)
  /\ (forall o, analyzerTarget (bridge w) = Some o -> (oid o < nextObj w)%nat).

(** What every message posted from document [d] satisfies. *)
Definition wellFormed (d : Dom) (m : Outbound) : Prop :=
  match m with
  | ELEMENT_SELECTED _ => True
  | CONTENT_HEIGHT_CHANGED reported => 800 <= reported <= 6400
  | CONTEXT_MENU_ACTION action scope _ prompt currentFile currentPage _ =>
      scope = "element"
      /\ prompt = generatePrompt d action
      /\ currentFile = location_pathname d
      /\ currentPage = location_href d
  | ANALYZER_ANIMATION_COMPLETE success => success = true
  end.

Definition postsWellFormed (d : Dom) (w : World) : Prop :=
  dom w = d /\ Forall (wellFormed d) (outbox w).

(** What the runs of [runAnalyzerSequence] keep true of the overlay: the
    actions of a script set neither the laser nor the initial phase, a
    queued sweep runs over the viewport for a positive time and started in
    the past, and the laser is within the viewport. *)
Definition scriptAction (a : Action) : Prop :=
  match a with
  | setLaserPosition _ | setScanPhase down => False
  | _ => True
  end.

Fixpoint scriptOk (s : Script) : Prop :=
  match s with
  | Await_animateLaser _ duration k => 0 < duration /\ scriptOk k
  | Do a k => scriptAction a /\ scriptOk k
  | SetTimeout body _ k => scriptOk body /\ scriptOk k
  | Return => True
  end.

Definition taskOk (h now : Z) (t : Task) : Prop :=
  match t with
  | animate _ startPos endPos duration startTime resolve =>
      ((startPos = 0 /\ endPos = h) \/ (startPos = h /\ endPos = 0))
      /\ 0 < duration /\ startTime <= now /\ scriptOk resolve
  | timeout _ body => scriptOk body
  | sendHeight_timeout => True
  end.

Definition analyzerOk (w : World) : Prop :=
  let h := innerHeight (dom w) in
  (0 <= h -> (0 <= laserPosition (analyzer w) <= inject_Z h)%Q)
  /\ scanPhase (analyzer w) = last (phaseCalls (history w)) down
  /\ Forall (fun p => p <> down) (phaseCalls (history w))
  /\ Forall (taskOk h (clock w)) (frameQueue w)
  /\ Forall (fun p => taskOk h (clock w) (snd p)) (timerQueue w).

Definition steady (c : Cmd) : Prop :=
  forall w, analyzerOk w -> analyzerOk (c w) /\ clock (c w) = clock w /\ dom (c w) = dom w.

(** The [onComplete] calls a script has still to make, those of a queued
    callback, and the completions of a world: the ones already posted and
    the ones its queued callbacks have still to make. *)
Fixpoint completionsLeft (s : Script) : nat :=
  match s with
  | Await_animateLaser _ _ k => completionsLeft k
  | Do onComplete k => S (completionsLeft k)
  | Do _ k => completionsLeft k
  | SetTimeout body _ k => (completionsLeft body + completionsLeft k)%nat
  | Return => 0%nat
  end.

Definition pending (t : Task) : nat :=
  match t with
  | animate _ _ _ _ _ resolve => completionsLeft resolve
  | timeout _ body => completionsLeft body
  | sendHeight_timeout => 0%nat
  end.

Definition accounted (w : World) : nat :=
  (completions (outbox w)
   + list_sum (map pending (frameQueue w))
   + list_sum (map (fun p => pending (snd p)) (timerQueue w)))%nat.

(** A command that starts as many runs as it adds completions. *)
Definition balanced (c : Cmd) : Prop :=
  forall w, (accounted (c w) + nextRun w = accounted w + nextRun (c w))%nat.

(* ================================================================== *)
(** ** Sample documents *)

Definition box : DOMRect := mkRect 40 20 300 24.

Definition heading : Element :=
  mkElement 1 "H1" "title" "" (Some "Welcome") "Welcome" "<h1 class=title>Welcome</h1>" box eq_refl.
Definition lead : Element :=
  mkElement 2 "P" "lead" "intro" (Some "Hello") "Hello" "<p class=lead id=intro>Hello</p>" box eq_refl.
Definition twin : Element :=
  mkElement 3 "P" "lead" "intro" (Some "Hello") "Hello" "<p class=lead id=intro>Hello</p>" box eq_refl.
Definition note : Element :=
  mkElement 4 "P" "note" "" (Some "Bye") "Bye" "<p class=note>Bye</p>" box eq_refl.

(** A page [w] by [h] pixels whose whole surface hits [lead]; the samples
    use no selector but those the model parses. *)
Definition page (w h measured : Z) : Dom :=
  {| elements := [heading; lead; twin; note];
     elementFromPoint := fun x y =>
       if (0 <=? x) && (x <? w) && (0 <=? y) && (y <? h) then Some lead else None;
     selectorEngine := fun _ => Throws;
     innerWidth := w; innerHeight := h;
     body_scrollHeight := measured; body_offsetHeight := measured;
     documentElement_clientHeight := measured;
     documentElement_scrollHeight := measured;
     documentElement_offsetHeight := measured;
     location_pathname := "/pages/home";
     location_href := "http://localhost:3000/pages/home" |}.

Definition desktop : Dom := page 1280 720 2400.
Definition narrow : Dom := page 200 600 2400.

(** A record no element of the sample page matches. *)
Definition stale : SelectedElement :=
  mkSelected "P" "gone" "" (Some "Removed") "Removed" "<p class=gone>Removed</p>".

(** One frame at the end of each sweep, then the two callout timers. *)
Definition fullRun (target : option SelectedElement) : list Event :=
  [ EvMessage (START_ANALYZER_ANIMATION target);
    EvAnimationFrame 750; EvAnimationFrame 1500;
    EvAnimationFrame 2250; EvAnimationFrame 3000;
    EvTimers 4000; EvTimers 5500 ].

(* ================================================================== *)
(** * Element codec: resolution *)

Section Codec.

Lemma lower_ascii_idem (c : ascii) : lower_ascii (lower_ascii c) = lower_ascii c.
Proof.
  destruct c as [[] [] [] [] [] [] [] []]; reflexivity.
Qed.

Lemma toLowerCase_idem (s : string) : toLowerCase (toLowerCase s) = toLowerCase s.
Proof.
  induction s as [|c r IH]; simpl; [reflexivity|].
  now rewrite lower_ascii_idem, IH.
Qed.

Lemma strict_eq_text_eq (a b : option string) : strict_eq_text a b = true <-> a = b.
Proof.
  destruct a as [x|], b as [y|]; simpl; split; intro H;
    try discriminate; try reflexivity.
  - apply String.eqb_eq in H. now subst.
  - injection H as ->. apply String.eqb_refl.
Qed.

Lemma sameFields_eq (rec : SelectedElement) (el : Element) :
  sameFields rec el = true <->
  className el = sel_className rec /\ id el = sel_id rec
  /\ textContent el = sel_textContent rec.
Proof.
  unfold sameFields.
  rewrite !andb_true_iff, !String.eqb_eq, strict_eq_text_eq. tauto.
Qed.

Lemma tagMatches_eq (selector : string) (el : Element) :
  tagMatches selector el = true <->
  toLowerCase (tagName el) = toLowerCase selector.
Proof. unfold tagMatches. apply String.eqb_eq. Qed.

Lemma tagMatches_lowered (selector : string) (el : Element) :
  tagMatches (toLowerCase selector) el = tagMatches selector el.
Proof. unfold tagMatches. now rewrite toLowerCase_idem. Qed.

Lemma find_filter {A} (p q : A -> bool) (l : list A) :
  find p (filter q l) = find (fun x => q x && p x) l.
Proof.
  induction l as [|a l IH]; simpl; [reflexivity|].
  destruct (q a); simpl; [destruct (p a); auto | auto].
Qed.

Lemma nameChar_plain (c : ascii) :
  isNameChar c = true -> isSpace c = false /\ Ascii.eqb c "," = false.
Proof.
  destruct c as [[] [] [] [] [] [] [] []]; intro H; try discriminate H;
    split; reflexivity.
Qed.

Lemma letter_nameChar (c : ascii) : isLetter c = true -> isNameChar c = true.
Proof. unfold isNameChar. now intros ->. Qed.

Lemma letter_not_star (c : ascii) : isLetter c = true -> Ascii.eqb c "*" = false.
Proof. destruct c as [[] [] [] [] [] [] [] []]; intro H; try discriminate H; reflexivity. Qed.

Lemma splitCommas_plain (s : string) :
  all isNameChar s = true -> splitCommas s = [s].
Proof.
  induction s as [|c r IH]; simpl; [reflexivity|].
  intro H. apply andb_true_iff in H. destruct H as [Hc Hr].
  destruct (nameChar_plain c Hc) as [_ ->]. now rewrite (IH Hr).
Qed.

Lemma trimEnd_plain (s : string) : all isNameChar s = true -> trimEnd s = s.
Proof.
  induction s as [|c r IH]; simpl; [reflexivity|].
  intro H. apply andb_true_iff in H. destruct H as [Hc Hr].
  rewrite (IH Hr). destruct (nameChar_plain c Hc) as [-> _]. now destruct r.
Qed.

Lemma typeSelector_names (s : string) :
  isTypeSelector s = true -> all isNameChar s = true /\ s <> "" /\ isUniversal s = false.
Proof.
  destruct s as [|c r]; simpl; [discriminate|].
  intro H. apply andb_true_iff in H. destruct H as [Hc Hr].
  split; [|split].
  - now rewrite (letter_nameChar c Hc), Hr.
  - discriminate.
  - unfold isUniversal. simpl. now rewrite (letter_not_star c Hc).
Qed.

Lemma all_weaken (p q : ascii -> bool) (s : string) :
  (forall c, p c = true -> q c = true) -> all p s = true -> all q s = true.
Proof.
  intro H. induction s as [|c r IH]; simpl; [reflexivity|].
  intro A. apply andb_true_iff in A. destruct A as [Hc Hr].
  now rewrite (H c Hc), (IH Hr).
Qed.

(** A plain identifier is parsed as the one type selector it is. *)
Lemma parseSelector_type (s : string) :
  isTypeSelector s = true -> parseSelector s = Selectors [s].
Proof.
  intro H. destruct (typeSelector_names s H) as (Hn & Hne & Hu).
  unfold parseSelector.
  rewrite (all_weaken isNameChar _ s) by (exact Hn || (intros c ->; reflexivity)).
  rewrite (splitCommas_plain s Hn). cbn [map].
  assert (T : trim s = s).
  { unfold trim. destruct s as [|c r]; [reflexivity|]. simpl in Hn.
    apply andb_true_iff in Hn. destruct Hn as [Hc Hr].
    cbn [trimStart]. destruct (nameChar_plain c Hc) as [-> _].
    apply trimEnd_plain. simpl. now rewrite Hc, Hr. }
  rewrite T. cbn [existsb forallb].
  assert (E : isEmpty s = false) by (destruct s; [now elim Hne | reflexivity]).
  now rewrite E, H, Hu.
Qed.

Lemma querySelectorAll_type (d : Dom) (s : string) :
  isTypeSelector s = true ->
  querySelectorAll d s = Returns (filter (tagMatches s) (elements d)).
Proof.
  intro H. unfold querySelectorAll. rewrite (parseSelector_type s H). f_equal.
  destruct (typeSelector_names s H) as (_ & _ & Hu).
  apply filter_ext. intro el. cbn [existsb]. unfold matchesItem.
  now rewrite Hu, orb_false_r.
Qed.

(** For a recorded tag name that is a type selector, the scan is a search
    of the whole document for the first candidate. *)
Lemma matchingElement_find (d : Dom) (rec : SelectedElement) :
  isTypeSelector (toLowerCase (sel_tagName rec)) = true ->
  matchingElement d rec = Returns (find (candidate rec) (elements d)).
Proof.
  intro H. unfold matchingElement. rewrite (querySelectorAll_type d _ H). f_equal.
  rewrite find_filter.
  induction (elements d) as [|a l IH]; simpl; [reflexivity|].
  unfold candidate at 1. rewrite tagMatches_lowered.
  destruct (tagMatches (sel_tagName rec) a && sameFields rec a); auto.
Qed.


Lemma find_first {A} (f : A -> bool) (l : list A) (e : A) :
  find f l = Some e <->
  exists before after,
    l = before ++ e :: after /\ f e = true
    /\ forall x, In x before -> f x = false.
Proof.
  induction l as [|a l IH]; simpl.
  - split; [discriminate|]. intros (b & t & H & _). now destruct b.
  - destruct (f a) eqn:Fa.
    + split.
      * intros [= ->]. exists [], l. simpl. repeat split; auto. contradiction.
      * intros (b & t & H & Fe & Hb). destruct b as [|x b]; simpl in H.
        -- now injection H as ->.
        -- injection H as -> _. rewrite (Hb x (or_introl eq_refl)) in Fa.
           discriminate.
    + rewrite IH. split.
      * intros (b & t & -> & Fe & Hb). exists (a :: b), t. simpl.
        repeat split; auto. intros x [<-|Hx]; auto.
      * intros (b & t & H & Fe & Hb). destruct b as [|x b]; simpl in H.
        -- injection H as -> _. congruence.
        -- injection H as -> ->. exists b, t. repeat split; auto.
           intros y Hy. apply Hb. now right.
Qed.

Lemma find_nothing {A} (f : A -> bool) (l : list A) :
  find f l = None <-> forall x, In x l -> f x = false.
Proof.
  split.
  - intros H x Hx. now apply (find_none f l H).
  - induction l as [|a l IH]; simpl; intro H; [reflexivity|].
    rewrite (H a (or_introl eq_refl)). apply IH. intros x Hx. apply H. now right.
Qed.


(** ** C1 *)



(** ** C2 *)

(** C2, as the claim has it, fails for a record whose tag name is not a
    plain tag: the lower-cased tag name is handed to
    [document.querySelectorAll] as a selector. On the sample page a record
    with tag name "*" and the class, id and text of the H1 resolves to the
    H1, and one with tag name "H1, P" and the fields of the note paragraph
    resolves to that paragraph, though no element has such a tag name; for
    an empty tag name the call throws a SyntaxError: the scan returns
    nothing and the resolve effect fails. *)
Lemma C2_selector_decides_not_the_tag :
  let star := mkSelected "*" "title" "" (Some "Welcome") "" "" in
  let both := mkSelected "H1, P" "note" "" (Some "Bye") "" "" in
  let blank := mkSelected "" "title" "" (Some "Welcome") "" "" in
  (matchingElement desktop star = Returns (Some heading)
   /\ toLowerCase (tagName heading) <> toLowerCase (sel_tagName star)
   /\ forall x, In x (elements desktop) -> candidate star x = false)
  /\ (matchingElement desktop both = Returns (Some note)
      /\ toLowerCase (tagName note) <> toLowerCase (sel_tagName both))
  /\ (matchingElement desktop blank = Throws
      /\ failed (selectionResolveEffect (Some (mkObj 0 blank)) (mount desktop)) = true
      /\ failed (analyzerResolveEffect (Some (mkObj 0 blank)) (mount desktop)) = true).
Proof.
  cbv zeta. repeat split; try reflexivity; try discriminate.
  intros x Hx. simpl in Hx.
  destruct Hx as [<-|[<-|[<-|[<-|[]]]]]; reflexivity.
Qed.

(** C2, amended. For every document and every record whose tag name,
    lower-cased, is a type selector (a plain identifier, as the tag name of
    a record built from an element is), the scan does not throw; it
    returns the first element in document order whose tag equals the
    recorded tag up to case and whose [className], [id] and [textContent]
    equal the recorded ones, and returns none exactly when no element
    does; both resolve effects store that result without failing, so
    repeating them changes nothing and, among several matching elements,
    the one first in document order is returned each time. *)
Theorem C2_resolve_first_in_document_order :
  forall (w : World) (rec : SelectedElement) (o : nat),
    isTypeSelector (toLowerCase (sel_tagName rec)) = true ->
    let d := dom w in
    let w1 := selectionResolveEffect (Some (mkObj o rec)) w in
    let w2 := analyzerResolveEffect (Some (mkObj o rec)) w in
    (forall e, matchingElement d rec = Returns (Some e) <->
       exists before after,
         elements d = before ++ e :: after
         /\ (toLowerCase (tagName e) = toLowerCase (sel_tagName rec)
             /\ className e = sel_className rec /\ id e = sel_id rec
             /\ textContent e = sel_textContent rec)
         /\ forall x, In x before -> candidate rec x = false)
    /\ (matchingElement d rec = Returns None <->
        forall x, In x (elements d) -> candidate rec x = false)
    /\ matchingElement d rec = Returns (selectedElementRef (selection w1))
    /\ matchingElement d rec = Returns (targetElementRef (analyzer w2))
    /\ failed w1 = failed w /\ failed w2 = failed w
    /\ selectionResolveEffect (Some (mkObj o rec)) w1 = w1
    /\ analyzerResolveEffect (Some (mkObj o rec)) w2 = w2.
Proof.
  intros w rec o Hty d w1 w2.
  pose proof (matchingElement_find d rec Hty) as Hf.
  split; [|split].
  - intro e. rewrite Hf. split.
    + intros [= H]. apply find_first in H.
      destruct H as (b & t & Hl & Hc & Hb). exists b, t. repeat split; auto.
      * unfold candidate in Hc. apply andb_true_iff in Hc. now apply tagMatches_eq.
      * unfold candidate in Hc. apply andb_true_iff in Hc.
        destruct Hc as [_ Hs]. apply sameFields_eq in Hs. tauto.
      * unfold candidate in Hc. apply andb_true_iff in Hc.
        destruct Hc as [_ Hs]. apply sameFields_eq in Hs. tauto.
      * unfold candidate in Hc. apply andb_true_iff in Hc.
        destruct Hc as [_ Hs]. apply sameFields_eq in Hs. tauto.
    + intros (b & t & Hl & Hc & Hb). f_equal. apply find_first.
      exists b, t. repeat split; auto.
      unfold candidate. apply andb_true_iff. split.
      * apply tagMatches_eq. tauto.
      * apply sameFields_eq. tauto.
  - rewrite Hf. split.
    + intros [= H]. now apply find_nothing.
    + intro H. f_equal. now apply find_nothing.
  - subst d w1 w2. unfold selectionResolveEffect, analyzerResolveEffect.
    destruct w. cbn [value dom] in Hf |- *. rewrite Hf.
    unfold setSelectedElementRef, setTargetElementRef, set_selection, set_analyzer.
    cbn [value dom selection analyzer selectedElementRef targetElementRef failed].
    rewrite Hf. repeat split; reflexivity.
Qed.

(** C2 on the sample page: [lead] and [twin] have the same tag, class, id
    and text; the record of [twin] resolves to [lead], the first in
    document order. *)
Lemma C2_twin_on_sample :
  isTypeSelector (toLowerCase (sel_tagName (elementData twin))) = true
  /\ matchingElement desktop (elementData twin)
     = Returns (selectedElementRef
                  (selection (selectionResolveEffect (Some (mkObj 0 (elementData twin)))
                                (mount desktop))))
  /\ selectedElementRef
       (selection (selectionResolveEffect (Some (mkObj 0 (elementData twin)))
                     (mount desktop))) = Some lead.
Proof.
  assert (Hty : isTypeSelector (toLowerCase (sel_tagName (elementData twin))) = true)
    by reflexivity.
  destruct (C2_resolve_first_in_document_order (mount desktop) (elementData twin) 0 Hty)
    as (_ & _ & H & _).
  split; [exact Hty|]. split; [exact H | reflexivity].
Defined.

(** Ambiguity on the sample page: [lead] and [twin] have the same tag,
    class, id and text; the record of either resolves to [lead], the first
    in document order. *)
Lemma twin_resolves_to_lead :
  matchingElement desktop (elementData twin) = Returns (Some lead)
  /\ matchingElement desktop (elementData lead) = Returns (Some lead).
Proof. split; reflexivity. Qed.

End Codec.

(* ================================================================== *)
(** * Rendering: the effects settle in two passes *)

Section Rendering.

Lemma same_id_refl (a : option nat) : same_id a a = true.
Proof. destruct a; simpl; [apply Nat.eqb_refl | reflexivity]. Qed.

Lemma hoverDepsSame_refl (a : Deps) : hoverDepsSame a a = true.
Proof. unfold hoverDepsSame. now rewrite eqb_reflx, same_id_refl. Qed.

Lemma sequenceDepsSame_refl (a : Deps) : sequenceDepsSame a a = true.
Proof.
  unfold sequenceDepsSame. now rewrite eqb_reflx, same_id_refl, Nat.eqb_refl.
Qed.

Lemma renderChildren_settled (w : World) :
  committed w = depsOf w -> renderChildren w = w.
Proof.
  intro H. unfold renderChildren. rewrite H.
  rewrite hoverDepsSame_refl, sequenceDepsSame_refl, !same_id_refl.
  simpl. unfold andThen, skip, set_committed. rewrite <- H.
  now destruct w.
Qed.

Lemma flush_settled (w : World) : settled w -> flush w = w.
Proof.
  intros (H & D & F). unfold flush, unlessFailed, andThen, renderBridge.
  rewrite F, D. rewrite (renderChildren_settled w H), F.
  exact (renderChildren_settled w H).
Qed.

Lemma renderChildren_spec (w : World) :
  let w' := renderChildren w in
  committed w' = depsOf w
  /\ bridge w' = bridge w /\ bridgeDirty w' = bridgeDirty w /\ renders w' = renders w
  /\ contextMenuElement (menu w') = contextMenuElement (menu w)
  /\ (hoveredElement (selection w') = hoveredElement (selection w)
      \/ hoveredElement (selection w') = None)
  /\ (hoverDepsSame (committed w) (depsOf w) = true ->
      hoveredElement (selection w') = hoveredElement (selection w))
  /\ (same_id (dep_targetElement (committed w)) (dep_targetElement (depsOf w)) = true ->
      targetElementRef (analyzer w') = targetElementRef (analyzer w)).
Proof.
  destruct w as [d c [sm se ia at_] bd rn [hv sr] [sp lp stf sce ter]
                   [cme cmo mp hr] cm fq tq ob hs nr no dp ps fl].
  unfold renderChildren, andThen, when. cbv zeta. simpl.
  destruct (hoverDepsSame cm _), (same_id (dep_selectedElement cm) _),
    (same_id (dep_targetElement cm) _), (sequenceDepsSame cm _),
    (same_id (dep_contextMenuElement cm) _); simpl.
  all: unfold hoverEffect, selectionResolveEffect, analyzerResolveEffect,
         sequenceEffect, highlightEffect, resolveThrows, skip.
  all: destruct sm, se as [s1|], at_ as [a1|], ia, cme; simpl.
  all: repeat match goal with
         | |- context [matchingElement ?x ?y] => destruct (matchingElement x y)
         end; simpl.
  all: repeat split; auto; try discriminate.
Qed.

(** A flush in which no effect threw leaves the tree settled. *)
Lemma flush_is_settled (w : World) : failed (flush w) = false -> settled (flush w).
Proof.
  unfold flush, unlessFailed, andThen.
  destruct (failed w) eqn:F0; [congruence|].
  set (w1 := renderBridge w).
  assert (D1 : bridgeDirty w1 = false).
  { subst w1. unfold renderBridge. destruct (bridgeDirty w) eqn:D; [reflexivity|exact D]. }
  destruct (renderChildren_spec w1) as (C2 & B2 & D2 & R2 & M2 & H2 & H2' & T2).
  set (w2 := renderChildren w1) in *.
  destruct (failed w2) eqn:F2; [congruence|].
  destruct (renderChildren_spec w2) as (C3 & B3 & D3 & R3 & M3 & H3 & H3' & T3).
  set (w3 := renderChildren w2) in *.
  intro F3.
  assert (T : targetElementRef (analyzer w3) = targetElementRef (analyzer w2)).
  { apply T3. rewrite C2. unfold depsOf; simpl. rewrite B2. apply same_id_refl. }
  assert (H : hoveredElement (selection w3) = hoveredElement (selection w2)).
  { destruct H2 as [E|E].
    - apply H3'. rewrite C2. unfold hoverDepsSame, depsOf; simpl.
      rewrite B2, E, eqb_reflx, same_id_refl. reflexivity.
    - destruct H3 as [E'|E']; congruence. }
  split; [|split].
  - rewrite C3. unfold depsOf. now rewrite B3, R3, M3, T, H.
  - congruence.
  - exact F3.
Qed.

Lemma mount_settled (d : Dom) : settled (mount d).
Proof. repeat split. Qed.

End Rendering.

(** ** What rendering leaves alone *)

Section Frames.

Lemma untouched_refl (w : World) : untouched w w.
Proof. repeat split. exists []. now rewrite app_nil_r. Qed.

Lemma untouched_trans (w1 w2 w3 : World) :
  untouched w1 w2 -> untouched w2 w3 -> untouched w1 w3.
Proof.
  unfold untouched. intros H1 H2.
  repeat match goal with H : _ /\ _ |- _ => destruct H as [? H] end.
  destruct H1 as [s1 E1], H2 as [s2 E2].
  repeat split; try congruence.
  exists (s1 ++ s2). rewrite E2, E1. now rewrite app_assoc.
Qed.

Lemma gentle_andThen (c1 c2 : Cmd) : gentle c1 -> gentle c2 -> gentle (andThen c1 c2).
Proof. intros H1 H2 w. unfold andThen. eapply untouched_trans; [apply H1|apply H2]. Qed.

Lemma gentle_when (b : bool) (c : Cmd) : gentle c -> gentle (when b c).
Proof. intros H w. destruct b; simpl; [apply H|apply untouched_refl]. Qed.

Ltac gentle_prim :=
  intros [d c [sm se ia at_] bd rn [hv sr] [sp lp stf sce ter]
            [cme cmo mp hr] cm fq tq ob hs nr no dp ps fl];
  simpl; repeat split; try reflexivity;
  first [ exists []; simpl; now rewrite app_nil_r | eexists; simpl; reflexivity ].

Lemma gentle_set_committed (v : Deps) : gentle (set_committed v).
Proof. gentle_prim. Qed.

Lemma gentle_hoverEffect (b : bool) : gentle (hoverEffect b).
Proof. destruct b; gentle_prim. Qed.

Lemma gentle_selectionResolveEffect (s : option Obj) : gentle (selectionResolveEffect s).
Proof.
  destruct s as [o|]; [|gentle_prim].
  intro w. unfold selectionResolveEffect.
  destruct (matchingElement (dom w) (value o)); revert w; gentle_prim.
Qed.

Lemma gentle_analyzerResolveEffect (s : option Obj) : gentle (analyzerResolveEffect s).
Proof.
  destruct s as [o|]; [|gentle_prim].
  intro w. unfold analyzerResolveEffect.
  destruct (matchingElement (dom w) (value o)); revert w; gentle_prim.
Qed.

Lemma gentle_sequenceEffect (b : bool) (r : option Element) : gentle (sequenceEffect b r).
Proof. destruct b; gentle_prim. Qed.

Lemma gentle_highlightEffect (e : option Element) : gentle (highlightEffect e).
Proof. destruct e; gentle_prim. Qed.

Lemma renderChildren_untouched (w : World) : untouched w (renderChildren w).
Proof.
  unfold renderChildren. cbv zeta.
  match goal with |- untouched w (?c w) => cut (gentle c); [intro G; apply G|] end.
  repeat lazymatch goal with
    | |- gentle (andThen _ _) => apply gentle_andThen
    | |- gentle (when _ _) => apply gentle_when
    | |- gentle (set_committed _) => apply gentle_set_committed
    | |- gentle (hoverEffect _) => apply gentle_hoverEffect
    | |- gentle (selectionResolveEffect _) => apply gentle_selectionResolveEffect
    | |- gentle (analyzerResolveEffect _) => apply gentle_analyzerResolveEffect
    | |- gentle (sequenceEffect _ _) => apply gentle_sequenceEffect
    | |- gentle (highlightEffect _) => apply gentle_highlightEffect
    end.
Qed.

Lemma renderBridge_untouched (w : World) : untouched w (renderBridge w).
Proof.
  unfold renderBridge. destruct (bridgeDirty w) eqn:D.
  - destruct w. repeat split. exists []. simpl. now rewrite app_nil_r.
  - apply untouched_refl.
Qed.

Lemma flush_untouched (w : World) : untouched w (flush w).
Proof.
  unfold flush, unlessFailed, andThen.
  destruct (failed w); [apply untouched_refl|].
  eapply untouched_trans; [apply renderBridge_untouched|].
  destruct (failed (renderChildren (renderBridge w))).
  - apply renderChildren_untouched.
  - eapply untouched_trans; apply renderChildren_untouched.
Qed.

End Frames.

(** ** Evaluating a render on a world given by its fields *)

Ltac proj_norm :=
  cbv [dom clock bridge bridgeDirty renders selection analyzer menu committed
       frameQueue timerQueue outbox history nextRun nextObj defaultPrevented
       propagationStopped
       isSelectMode selectedElement isAnalyzing analyzerTarget
       hoveredElement selectedElementRef
       scanPhase laserPosition showTargetFound showContextEnhancing targetElementRef
       contextMenuElement contextMenuOpen menuPosition highlightRect
       dep_isSelectMode dep_hoveredElement dep_selectedElement dep_targetElement
       dep_isActive dep_targetElementRef dep_onComplete dep_contextMenuElement
       depsOf hoverDepsSame sequenceDepsSame same_obj same_node
       fst snd when skip andThen
       set_clock set_bridge set_renders set_selection set_analyzer set_menu
       set_committed set_frameQueue set_timerQueue set_outbox set_history
       set_nextRun set_nextObj set_flags
       failed set_failed unlessFailed uncaught throws resolveThrows].

Ltac cmd_norm :=
  cbv [dom clock bridge bridgeDirty renders selection analyzer menu committed
       frameQueue timerQueue outbox history nextRun nextObj defaultPrevented
       propagationStopped
       isSelectMode selectedElement isAnalyzing analyzerTarget
       hoveredElement selectedElementRef
       scanPhase laserPosition showTargetFound showContextEnhancing targetElementRef
       contextMenuElement contextMenuOpen menuPosition highlightRect
       dep_isSelectMode dep_hoveredElement dep_selectedElement dep_targetElement
       dep_isActive dep_targetElementRef dep_onComplete dep_contextMenuElement
       depsOf hoverDepsSame sequenceDepsSame same_obj same_node
       fst snd when skip andThen
       set_clock set_bridge set_renders set_selection set_analyzer set_menu
       set_committed set_frameQueue set_timerQueue set_outbox set_history
       set_nextRun set_nextObj set_flags
       failed set_failed unlessFailed uncaught throws resolveThrows
       postMessage requestAnimationFrame setTimeout preventDefault stopPropagation
       setIsSelectMode setSelectedElement setIsAnalyzing setAnalyzerTarget
       received handleMessage sendHeight measureAndSendHeight
       handleElementSelect handleAnalyzerComplete
       setHoveredElement setSelectedElementRef handleMouseMove handleClick
       handleKeyDown hoverEffect selectionResolveEffect
       setContextMenuElement setContextMenuOpen setMenuPosition setHighlightRect
       handleContextMenu closeMenu handleClickOutside handleEscape
       handleMenuAction highlightEffect
       perform setTargetElementRef animateLaser exec runTask
       analyzerResolveEffect sequenceEffect runAnalyzerSequence renderBridge].

Ltac refl_conds :=
  rewrite ?Nat.eqb_refl, ?eqb_reflx, ?same_id_refl;
  cbn [negb andb orb Bool.eqb same_id option_map oid value app].


Lemma flush_once (x w1 : World) :
  failed x = false ->
  renderChildren (renderBridge x) = w1 ->
  failed w1 = false -> committed w1 = depsOf w1 ->
  flush x = w1.
Proof.
  intros F <- F1 H. unfold flush, unlessFailed, andThen. rewrite F, F1.
  now apply renderChildren_settled.
Qed.

Lemma flush_twice (x w1 w2 : World) :
  failed x = false ->
  renderChildren (renderBridge x) = w1 ->
  failed w1 = false -> renderChildren w1 = w2 ->
  flush x = w2.
Proof.
  intros F <- F1 <-. unfold flush, unlessFailed, andThen. now rewrite F, F1.
Qed.

Lemma flush_thrown (x w1 : World) :
  failed x = false ->
  renderChildren (renderBridge x) = w1 ->
  failed w1 = true ->
  flush x = w1.
Proof.
  intros F <- F1. unfold flush, unlessFailed, andThen. now rewrite F, F1.
Qed.

(** Evaluate [flush x] in the goal, for a world [x] given by its fields;
    [tac] settles what the effects read from the document. *)
Ltac eval_flush_with tac :=
  lazymatch goal with
  | |- context [flush ?x] =>
      let H := fresh "E" in
      eassert (H : flush x = _);
      [ eapply flush_once;
        [ cmd_norm; reflexivity
        | cmd_norm; refl_conds;
          unfold renderChildren; proj_norm; refl_conds;
          unfold selectionResolveEffect, analyzerResolveEffect; proj_norm; refl_conds; tac;
          cmd_norm; refl_conds; tac; reflexivity
        | reflexivity
        | tac; reflexivity ]
      | rewrite H; clear H ]
  end.

Ltac eval_flush := eval_flush_with idtac.

Lemma eqb_n_Sn (n : nat) : Nat.eqb n (S n) = false.
Proof. induction n as [|n IH]; [reflexivity | exact IH]. Qed.

(** Evaluate the innermost render of the goal, and a whole [flush] whose
    second render may still run effects. *)
Ltac conds :=
  rewrite ?Nat.eqb_refl, ?eqb_reflx, ?same_id_refl, ?eqb_n_Sn;
  cbn [negb andb orb Bool.eqb same_id option_map oid value app].

Ltac eval_pass tac :=
  match goal with
  | |- context [renderChildren ?x] =>
      lazymatch x with
      | context [renderChildren] => fail
      | _ =>
          let H := fresh "E" in
          eassert (H : renderChildren x = _);
          [ unfold renderChildren; proj_norm; conds;
            unfold selectionResolveEffect, analyzerResolveEffect; proj_norm; conds; tac;
            cmd_norm; conds; tac; reflexivity
          | rewrite H; clear H ]
      end
  end.

Ltac eval_flush2_with tac :=
  lazymatch goal with
  | |- context [flush ?x] =>
      let H := fresh "E" in
      eassert (H : flush x = _);
      [ eapply flush_twice;
        [ cmd_norm; reflexivity
        | cmd_norm; conds;
          unfold renderChildren; proj_norm; conds;
          unfold selectionResolveEffect, analyzerResolveEffect; proj_norm; conds; tac;
          cmd_norm; conds; tac; reflexivity
        | reflexivity
        | unfold renderChildren; proj_norm; conds;
          unfold selectionResolveEffect, analyzerResolveEffect; proj_norm; conds; tac;
          cmd_norm; conds; tac; reflexivity ]
      | rewrite H; clear H ]
  end.

Ltac eval_flush2 := eval_flush2_with idtac.

(** Evaluate a [flush x] whose first render fails. *)
Ltac eval_thrown_with tac :=
  lazymatch goal with
  | |- context [flush ?x] =>
      let H := fresh "E" in
      eassert (H : flush x = _);
      [ eapply flush_thrown;
        [ cmd_norm; reflexivity
        | cmd_norm; conds;
          unfold renderChildren; proj_norm; conds;
          unfold selectionResolveEffect, analyzerResolveEffect; proj_norm; conds; tac;
          cmd_norm; conds; tac; reflexivity
        | reflexivity ]
      | rewrite H; clear H ]
  end.

Ltac open_world w :=
  destruct w as [d c [sm se ia at_] bd rn [hv sr] [sp lp stf sce ter]
                   [cme cmo mp hr] cm fq tq ob hs nr no dp ps fl].

(* ================================================================== *)
(** * Height reporter *)

Section Height.

Lemma max_min_clamp (h : Z) : Z.max (Z.min h 6400) 800 = clamp 800 6400 h.
Proof.
  unfold clamp. destruct (Z.ltb_spec h 800), (Z.ltb_spec 6400 h); lia.
Qed.

(** C7. The height sent in CONTENT_HEIGHT_CHANGED is the measured height
    clamped to the interval from 800 to 6400, the upper bound being applied
    first and the lower bound second; measured heights 0, 500, 4000 and
    9000 are reported as 800, 800, 4000 and 6400. *)
Theorem C7_reported_height_clamped :
  (forall w : World,
     outbox (sendHeight w)
     = outbox w ++ [CONTENT_HEIGHT_CHANGED (clamp 800 6400 (measuredHeight (dom w)))]
     /\ clamp 800 6400 (measuredHeight (dom w))
        = Z.max (Z.min (measuredHeight (dom w)) 6400) 800
     /\ 800 <= clamp 800 6400 (measuredHeight (dom w)) <= 6400)
  /\ outbox (run (mount (page 1280 720 0)) [EvTimers 100]) = [CONTENT_HEIGHT_CHANGED 800]
  /\ outbox (run (mount (page 1280 720 500)) [EvTimers 100]) = [CONTENT_HEIGHT_CHANGED 800]
  /\ outbox (run (mount (page 1280 720 4000)) [EvTimers 100]) = [CONTENT_HEIGHT_CHANGED 4000]
  /\ outbox (run (mount (page 1280 720 9000)) [EvTimers 100]) = [CONTENT_HEIGHT_CHANGED 6400].
Proof.
  split; [|repeat split; reflexivity].
  intro w. repeat split.
  - unfold sendHeight, postMessage. rewrite max_min_clamp. now destruct w.
  - symmetry. apply max_min_clamp.
  - unfold clamp. destruct (Z.ltb_spec (measuredHeight (dom w)) 800),
      (Z.ltb_spec 6400 (measuredHeight (dom w))); lia.
  - unfold clamp. destruct (Z.ltb_spec (measuredHeight (dom w)) 800),
      (Z.ltb_spec 6400 (measuredHeight (dom w))); lia.
Qed.

End Height.

(* ================================================================== *)
(** * Context menu *)

Section ContextMenu.

Lemma handleContextMenu_hit (w : World) (x y : Z) (el : Element) :
  elementFromPoint (dom w) x y = Some el ->
  menu (handleContextMenu x y w)
  = mkMenu (Some el) true
      (if x + menuWidth >? innerWidth (dom w)
       then innerWidth (dom w) - menuWidth - 10 else x,
       if y + menuHeight >? innerHeight (dom w)
       then innerHeight (dom w) - menuHeight - 10 else y)
      (Some (getBoundingClientRect el)).
Proof.
  intro H. unfold handleContextMenu, andThen, preventDefault.
  destruct w; simpl in *. rewrite H. reflexivity.
Qed.

(** C8, as the claim has it, fails in a viewport narrower than the menu
    and its margin: a contextmenu event at (viewportWidth - 10,
    viewportHeight - 10) of a 200 by 600 viewport places the menu at
    x = -30, off the left edge. *)
Lemma C8_menu_leaves_narrow_viewport :
  let w := dispatch (EvContextMenu (innerWidth narrow - 10) (innerHeight narrow - 10) Page)
             (mount narrow) in
  contextMenuOpen (menu w) = true
  /\ menuPosition (menu w) = (-30, 460)
  /\ ~ menuInsideViewport narrow (menuPosition (menu w)).
Proof.
  repeat split. intros (H & _). vm_compute in H. now apply H.
Qed.

(** C8, amended. For a contextmenu event at a point (x, y) with x, y >= 0
    that hits an element, in a viewport at least 230 wide and 140 high
    (the nominal 220 by 130 menu plus the margin of 10), the menu opens at
    a position that keeps the menu box inside the viewport: where x + 220
    exceeds the viewport width, x is moved left by the overflow plus the
    margin, to viewportWidth - 220 - 10, and otherwise kept; the same for
    y with 130 and the viewport height; an event at (viewportWidth - 10,
    viewportHeight - 10) is placed at (viewportWidth - 230,
    viewportHeight - 140). *)
Theorem C8_menu_position_in_viewport :
  forall (w : World) (x y : Z) (el : Element),
    elementFromPoint (dom w) x y = Some el ->
    0 <= x -> 0 <= y ->
    menuWidth + 10 <= innerWidth (dom w) ->
    menuHeight + 10 <= innerHeight (dom w) ->
    let vw := innerWidth (dom w) in
    let vh := innerHeight (dom w) in
    let m := menu (handleContextMenu x y w) in
    contextMenuOpen m = true
    /\ menuInsideViewport (dom w) (menuPosition m)
    /\ (vw < x + 220 ->
        fst (menuPosition m) = vw - 220 - 10
        /\ fst (menuPosition m) = x - (x + 220 - vw) - 10)
    /\ (x + 220 <= vw -> fst (menuPosition m) = x)
    /\ (vh < y + 130 ->
        snd (menuPosition m) = vh - 130 - 10
        /\ snd (menuPosition m) = y - (y + 130 - vh) - 10)
    /\ (y + 130 <= vh -> snd (menuPosition m) = y)
    /\ (x = vw - 10 -> y = vh - 10 -> menuPosition m = (vw - 230, vh - 140)).
Proof.
  intros w x y el Hhit Hx Hy Hw Hh vw vh m.
  subst m. rewrite (handleContextMenu_hit w x y el Hhit).
  unfold menuInsideViewport, menuWidth, menuHeight in *. simpl.
  fold vw vh.
  destruct (Z.gtb_spec (x + 220) vw), (Z.gtb_spec (y + 130) vh);
    repeat split; intros; subst; try lia; try (f_equal; lia).
Qed.

(** C8 on the sample desktop page, for an event in its bottom right
    corner. *)
Lemma C8_desktop_corner :
  elementFromPoint desktop 1270 710 = Some lead
  /\ menuPosition (menu (handleContextMenu 1270 710 (mount desktop))) = (1050, 580)
  /\ menuInsideViewport desktop (1050, 580).
Proof.
  assert (Hhit : elementFromPoint (dom (mount desktop)) 1270 710 = Some lead)
    by reflexivity.
  assert (H := C8_menu_position_in_viewport (mount desktop) 1270 710 lead Hhit).
  simpl in H.
  destruct H as (_ & Hin & _ & _ & _ & _ & Hc);
    [lia | lia | unfold menuWidth; lia | unfold menuHeight; lia |].
  split; [exact Hhit|]. split; [now apply Hc | exact Hin].
Defined.

(** C10. A contextmenu event always has its default action prevented,
    whatever the hit-test gives; when the hit-test finds no element the
    handler leaves the captured element, the highlight rectangle, the menu
    position and the open flag as they were, and a closed menu stays
    closed with that state untouched after the whole event. *)
Theorem C10_contextmenu_miss :
  forall (w : World) (x y : Z),
    defaultPrevented (handleContextMenu x y w) = true
    /\ (forall target, defaultPrevented (dispatch (EvContextMenu x y target) w) = true)
    /\ (elementFromPoint (dom w) x y = None ->
        menu (handleContextMenu x y w) = menu w
        /\ (forall target,
              settled w -> contextMenuOpen (menu w) = false ->
              menu (dispatch (EvContextMenu x y target) w) = menu w)).
Proof.
  intros w x y.
  assert (P : defaultPrevented (handleContextMenu x y w) = true).
  { unfold handleContextMenu, andThen, preventDefault.
    destruct (elementFromPoint (dom (set_flags true (propagationStopped w) w)) x y);
      now destruct w. }
  split; [exact P|]. split.
  - intro target. unfold dispatch, task, andThen.
    destruct (flush_untouched
                (when (contextMenuOpen (menu (set_flags false false w)))
                   (handleClickOutside (inMenu target))
                   (handleContextMenu x y (set_flags false false w))))
      as (_ & _ & _ & _ & _ & _ & _ & -> & _).
    unfold handleContextMenu, andThen, preventDefault, handleClickOutside, when.
    destruct w as [d c b bd rn sl an [cme cmo mp hr] cm fq tq ob hs nr no dp ps fl].
    simpl. destruct (elementFromPoint d x y), cmo, (inMenu target); reflexivity.
  - intro Hmiss.
    assert (M : menu (handleContextMenu x y w) = menu w).
    { unfold handleContextMenu, andThen, preventDefault.
      destruct w; simpl in *. now rewrite Hmiss. }
    split; [exact M|].
    intros target Hs Hclosed. unfold dispatch, task, andThen.
    replace (contextMenuOpen (menu (set_flags false false w))) with false
      by (destruct w; symmetry; exact Hclosed).
    simpl. unfold skip.
    rewrite flush_settled.
    + unfold handleContextMenu, andThen, preventDefault.
      destruct w; simpl in *. now rewrite Hmiss.
    + unfold handleContextMenu, andThen, preventDefault.
      destruct w; simpl in *. rewrite Hmiss. exact Hs.
Qed.

(** C10 on the sample desktop page: a contextmenu event outside the page
    surface. *)
Lemma C10_miss_outside_page :
  defaultPrevented (dispatch (EvContextMenu (-5) 10 Page) (mount desktop)) = true
  /\ menu (dispatch (EvContextMenu (-5) 10 Page) (mount desktop)) = menu (mount desktop).
Proof.
  destruct (C10_contextmenu_miss (mount desktop) (-5) 10) as (_ & Hp & Hm).
  split; [apply Hp|].
  destruct (Hm eq_refl) as [_ Hd].
  apply Hd; [apply mount_settled | reflexivity].
Defined.

End ContextMenu.

(* ================================================================== *)
(** * Selection session *)

Section Selection.




End Selection.

(* ================================================================== *)
(** * Bridge transport: what is posted *)

Section Transport.

Lemma posts_skip : posts skip.
Proof. intro w. exists []. split; [now rewrite app_nil_r | constructor]. Qed.

Lemma posts_quiet (c : Cmd) : (forall w, outbox (c w) = outbox w) -> posts c.
Proof.
  intros H w. exists []. rewrite H. split; [now rewrite app_nil_r | constructor].
Qed.

Lemma posts_andThen (c1 c2 : Cmd) : posts c1 -> posts c2 -> posts (andThen c1 c2).
Proof.
  intros H1 H2 w. unfold andThen.
  destruct (H1 w) as (m1 & E1 & F1). destruct (H2 (c1 w)) as (m2 & E2 & F2).
  exists (m1 ++ m2). rewrite E2, E1, app_assoc. split; [reflexivity|].
  apply Forall_app. now split.
Qed.

Lemma posts_when (b : bool) (c : Cmd) : posts c -> posts (when b c).
Proof. intro H. destruct b; simpl; [exact H | apply posts_skip]. Qed.

Lemma posts_postMessage (m : Outbound) : reportsSuccess m -> posts (postMessage m).
Proof.
  intros H w. exists [m]. split; [now destruct w | now constructor].
Qed.

Ltac quiet := apply posts_quiet; intros []; reflexivity.

Lemma posts_setIsSelectMode v : posts (setIsSelectMode v).
Proof. quiet. Qed.
Lemma posts_setSelectedElement v : posts (setSelectedElement v).
Proof. quiet. Qed.
Lemma posts_setIsAnalyzing v : posts (setIsAnalyzing v).
Proof. quiet. Qed.
Lemma posts_setAnalyzerTarget v : posts (setAnalyzerTarget v).
Proof. quiet. Qed.
Lemma posts_setHoveredElement v : posts (setHoveredElement v).
Proof. quiet. Qed.
Lemma posts_setTimeout t delay : posts (setTimeout t delay).
Proof. quiet. Qed.
Lemma posts_requestAnimationFrame t : posts (requestAnimationFrame t).
Proof. quiet. Qed.
Lemma posts_preventDefault : posts preventDefault.
Proof. quiet. Qed.
Lemma posts_stopPropagation : posts stopPropagation.
Proof. quiet. Qed.
Lemma posts_closeMenu : posts closeMenu.
Proof. quiet. Qed.
Lemma posts_set_flags a b : posts (set_flags a b).
Proof. quiet. Qed.
Lemma posts_set_clock v : posts (set_clock v).
Proof. quiet. Qed.
Lemma posts_set_frameQueue v : posts (set_frameQueue v).
Proof. quiet. Qed.
Lemma posts_set_timerQueue v : posts (set_timerQueue v).
Proof. quiet. Qed.

Lemma posts_received payload (k : option Obj -> Cmd) :
  (forall o, posts (k o)) -> posts (received payload k).
Proof.
  intros H w. unfold received.
  destruct (H (option_map (mkObj (nextObj w)) payload) (set_nextObj (S (nextObj w)) w))
    as (ms & E & F).
  exists ms. rewrite E. split; [now destruct w | exact F].
Qed.

Lemma posts_handleAnalyzerComplete : posts handleAnalyzerComplete.
Proof.
  unfold handleAnalyzerComplete.
  repeat apply posts_andThen.
  - apply posts_setIsAnalyzing.
  - apply posts_setAnalyzerTarget.
  - apply posts_postMessage. reflexivity.
Qed.

Lemma posts_handleElementSelect e : posts (handleElementSelect e).
Proof. apply posts_postMessage. exact I. Qed.

Lemma posts_sendHeight : posts sendHeight.
Proof. intro w. unfold sendHeight. apply posts_postMessage. exact I. Qed.

Lemma posts_handleMessage data : posts (handleMessage data).
Proof.
  destruct data; simpl.
  - apply posts_setIsSelectMode.
  - apply posts_received, posts_setSelectedElement.
  - apply posts_andThen; [apply posts_setIsAnalyzing|].
    apply posts_received, posts_setAnalyzerTarget.
  - apply posts_skip.
Qed.

Lemma posts_handleMouseMove x y : posts (handleMouseMove x y).
Proof.
  intro w. unfold handleMouseMove.
  destruct (elementFromPoint (dom w) x y); [|apply posts_skip].
  destruct (negb _); [apply posts_setHoveredElement | apply posts_skip].
Qed.

Lemma posts_handleClick x y : posts (handleClick x y).
Proof.
  intro w. unfold handleClick.
  destruct (elementFromPoint (dom w) x y); [|apply posts_skip].
  revert w. repeat apply posts_andThen.
  - apply posts_handleElementSelect.
  - apply posts_preventDefault.
  - apply posts_stopPropagation.
Qed.

Lemma posts_handleKeyDown key : posts (handleKeyDown key).
Proof.
  unfold handleKeyDown. destruct (String.eqb key "Escape"); [|apply posts_skip].
  apply posts_andThen; [apply posts_setHoveredElement | apply posts_handleElementSelect].
Qed.

Lemma posts_handleContextMenu x y : posts (handleContextMenu x y).
Proof.
  unfold handleContextMenu. apply posts_andThen; [apply posts_preventDefault|].
  apply posts_quiet. intros [d c b bd rn sl an mn cm fq tq ob hs nr no dp ps fl].
  simpl. now destruct (elementFromPoint d x y).
Qed.

Lemma posts_handleClickOutside b : posts (handleClickOutside b).
Proof.
  unfold handleClickOutside. destruct (negb b); [apply posts_closeMenu | apply posts_skip].
Qed.

Lemma posts_handleEscape key : posts (handleEscape key).
Proof.
  unfold handleEscape.
  destruct (String.eqb key "Escape"); [apply posts_closeMenu | apply posts_skip].
Qed.

Lemma posts_handleMenuAction action scope : posts (handleMenuAction action scope).
Proof.
  intro w. unfold handleMenuAction.
  destruct (contextMenuElement (menu w)); [|apply posts_skip].
  apply (posts_andThen _ closeMenu); [|apply posts_closeMenu].
  apply posts_postMessage. exact I.
Qed.

Lemma posts_perform r a : posts (perform r a).
Proof.
  destruct a; try quiet.
  intro w. unfold perform.
  destruct (posts_handleAnalyzerComplete (set_history (history w ++ [(r, onComplete)]) w))
    as (ms & E & F).
  exists ms. rewrite E. split; [now destruct w | exact F].
Qed.

Lemma posts_exec r s : posts (exec r s).
Proof.
  induction s as [dir dur k IH | a k IH | body IHb delay k IH |]; simpl.
  - quiet.
  - apply posts_andThen; [apply posts_perform | exact IH].
  - apply posts_andThen; [apply posts_setTimeout | exact IH].
  - apply posts_skip.
Qed.

Lemma posts_runTask t : posts (runTask t).
Proof.
  destruct t as [r sp ep dur st k | r body |]; simpl.
  - intro w. unfold animateFrame.
    set (w1 := perform r _ w).
    destruct (posts_perform r (setLaserPosition
       (inject_Z sp + (inject_Z ep - inject_Z sp) *
        (1 - (1 - Qmin (inject_Z (clock w - st) / inject_Z dur) 1) ^ 3))%Q) w)
      as (m1 & E1 & F1).
    fold w1 in E1.
    assert (H2 : exists m2, outbox ((if negb (Qle_bool 1
                   (Qmin (inject_Z (clock w - st) / inject_Z dur) 1))
                 then requestAnimationFrame (animate r sp ep dur st k)
                 else exec r k) w1) = outbox w1 ++ m2 /\ Forall reportsSuccess m2).
    { destruct (negb _); [apply posts_requestAnimationFrame | apply posts_exec]. }
    destruct H2 as (m2 & E2 & F2).
    exists (m1 ++ m2). split.
    + destruct (negb _); rewrite E2, E1, app_assoc; reflexivity.
    + apply Forall_app. now split.
  - apply posts_exec.
  - apply posts_sendHeight.
Qed.

Lemma posts_flush : posts flush.
Proof.
  apply posts_quiet. intro w.
  now destruct (flush_untouched w) as (_ & _ & _ & H & _).
Qed.

Lemma posts_task c : posts c -> posts (task c).
Proof. intro H. apply posts_andThen; [exact H | apply posts_flush]. Qed.

Lemma posts_fold {A} (f : A -> Cmd) (l : list A) :
  (forall x, posts (f x)) -> posts (fun w => fold_left (fun acc x => f x acc) l w).
Proof.
  intro H. induction l as [|a l IH]; simpl.
  - apply posts_skip.
  - intro w. destruct (H a w) as (m1 & E1 & F1).
    destruct (IH (f a w)) as (m2 & E2 & F2).
    exists (m1 ++ m2). rewrite E2, E1, app_assoc. split; [reflexivity|].
    apply Forall_app. now split.
Qed.

Lemma posts_dispatch e : posts (dispatch e).
Proof.
  intro w. unfold dispatch.
  set (w0 := set_flags false false w).
  assert (H0 : outbox w0 = outbox w) by now destruct w.
  rewrite <- H0.
  destruct e as [data | x y | x y target | key | x y target | | now | now].
  - apply posts_task, posts_handleMessage.
  - apply posts_task, posts_when, posts_handleMouseMove.
  - apply posts_task, posts_andThen; [apply posts_when, posts_handleClick|].
    intro w'. destruct (propagationStopped w'); [apply posts_skip|].
    revert w'. apply posts_andThen.
    + destruct target; try apply posts_skip.
      apply posts_when, posts_handleMenuAction.
    + apply posts_when, posts_handleClickOutside.
  - apply posts_task, posts_andThen;
      [apply posts_when, posts_handleKeyDown | apply posts_when, posts_handleEscape].
  - apply posts_task, posts_andThen;
      [apply posts_handleContextMenu | apply posts_when, posts_handleClickOutside].
  - apply posts_task. unfold measureAndSendHeight. apply posts_setTimeout.
  - set (w1 := set_clock _ w0).
    assert (H1 : outbox (set_frameQueue [] w1) = outbox w0) by now destruct w.
    rewrite <- H1.
    apply (posts_fold (fun t => task (runTask t))).
    intro t. apply posts_task, posts_runTask.
  - set (w1 := set_clock _ w0).
    match goal with |- context [fold_left _ _ (set_timerQueue ?q w1)] =>
      assert (H1 : outbox (set_timerQueue q w1) = outbox w0) by now destruct w
    end.
    rewrite <- H1.
    apply (posts_fold (fun p => task (runTask (snd p)))).
    intro t. apply posts_task, posts_runTask.
Qed.

Lemma posts_step (e : Event) : posts (step e).
Proof.
  intro w. unfold step, orphaned.
  destruct (failed w); [|apply posts_dispatch].
  destruct e; try apply posts_skip; apply posts_dispatch.
Qed.

Lemma posts_run (events : list Event) (w : World) :
  exists ms, outbox (run w events) = outbox w ++ ms /\ Forall reportsSuccess ms.
Proof.
  unfold run.
  exact (posts_fold step events posts_step w).
Qed.

(** C9. Whatever events the mounted bridge receives, every
    ANALYZER_ANIMATION_COMPLETE message it has posted carries
    success = true, whether or not the target of the run resolved. *)
Theorem C9_completion_reports_success :
  forall (d : Dom) (events : list Event) (success : bool),
    In (ANALYZER_ANIMATION_COMPLETE success) (outbox (run (mount d) events)) ->
    success = true.
Proof.
  intros d events success H.
  destruct (posts_run events (mount d)) as (ms & E & F).
  rewrite E in H. simpl in H.
  rewrite Forall_forall in F. exact (F _ H).
Qed.

(** C9 on the sample page, after a run without a target. *)
Lemma C9_completion_of_sample_run :
  In (ANALYZER_ANIMATION_COMPLETE true) (outbox (run (mount desktop) (fullRun None)))
  /\ true = true.
Proof.
  assert (H : In (ANALYZER_ANIMATION_COMPLETE true)
                (outbox (run (mount desktop) (fullRun None))))
    by (vm_compute; auto).
  split; [exact H|].
  exact (C9_completion_reports_success desktop (fullRun None) true H).
Defined.

End Transport.

(* ================================================================== *)
(** * Analyzer sequencer *)

Section Analyzer.

(** One START message for a target that resolves starts two runs: the
    sequence effect runs in the render where [isActive] turns true, whose
    [targetElementRef] is still null, and again in the render that follows
    [setTargetElementRef]; the first run is not cancelled. *)
Lemma start_with_live_target_starts_two_runs :
  forall (d : Dom) (rec : SelectedElement) (e : Element),
    matchingElement d rec = Returns (Some e) ->
    let w := dispatch (EvMessage (START_ANALYZER_ANIMATION (Some rec))) (mount d) in
    frameQueue w
    = [ animate 0 0 (innerHeight d) 750 0 (resumeAfter 1 (runAnalyzerSequence None));
        animate 1 0 (innerHeight d) 750 0 (resumeAfter 1 (runAnalyzerSequence (Some e))) ]
    /\ nextRun w = 2%nat
    /\ targetElementRef (analyzer w) = Some e.
Proof.
  intros d rec e H.
  unfold dispatch, task, andThen, mount.
  eval_flush2_with ltac:(rewrite ?H; cmd_norm; conds).
  repeat split.
Qed.



Lemma phaseCalls_app (a b : list (nat * Action)) :
  phaseCalls (a ++ b) = phaseCalls a ++ phaseCalls b.
Proof.
  induction a as [|[r []] a IH]; simpl; rewrite ?IH; reflexivity.
Qed.





Lemma run_step (w : World) (e : Event) (l : list Event) :
  run w (e :: l) = run (step e w) l.
Proof. reflexivity. Qed.

Lemma step_mounted (e : Event) (w : World) : failed w = false -> step e w = dispatch e w.
Proof. intro F. unfold step. now rewrite F. Qed.

Lemma run_cons (w : World) (e : Event) (l : list Event) :
  failed w = false -> run w (e :: l) = run (dispatch e w) l.
Proof. intro F. rewrite run_step. now rewrite step_mounted. Qed.

Lemma run_nil (w : World) : run w [] = w.
Proof. reflexivity. Qed.




(** ** C5 *)




(** ** C3 and C4 *)

(** C3, at a failing input. On the sample page a START message whose
    target is the record of [lead] resolves to [lead] and starts two runs.
    With one frame at the end of each sweep the phase is set in the order
    up, up, down2, down2, up2, up2, target-found, complete, target-found,
    context-enhancing, complete; the completion callback is called by the
    first run at the 3000 ms frame, which posts a first
    ANALYZER_ANIMATION_COMPLETE and clears [isAnalyzing] before any callout
    is due, and again by the second run at 5500 ms. *)
Theorem C3_live_target_completes_twice :
  let start := EvMessage (START_ANALYZER_ANIMATION (Some (elementData lead))) in
  let w3000 := run (mount desktop) (firstn 5 (fullRun (Some (elementData lead)))) in
  let w := run (mount desktop) (fullRun (Some (elementData lead))) in
  matchingElement desktop (elementData lead) = Returns (Some lead)
  /\ nextRun (run (mount desktop) [start]) = 2%nat
  /\ phaseCalls (history w)
     = [up; up; down2; down2; up2; up2; target_found; complete;
        target_found; context_enhancing; complete]
  /\ onCompleteCalls (history w) = [0; 1]%nat
  /\ completions (outbox w3000) = 1%nat
  /\ isAnalyzing (bridge w3000) = false
  /\ scanPhase (analyzer w3000) = target_found
  /\ completions (outbox w) = 2%nat.
Proof.
  vm_compute. repeat split.
Qed.

(** Withdrawing [isActive], which only [handleAnalyzerComplete] does,
    leaves every pending timer and animation-frame callback in place. *)
Lemma withdrawal_cancels_nothing (w : World) :
  let w' := task handleAnalyzerComplete w in
  isAnalyzing (bridge w') = false
  /\ timerQueue w' = timerQueue w
  /\ exists started, frameQueue w' = frameQueue w ++ started.
Proof.
  unfold task, andThen.
  destruct (flush_untouched (handleAnalyzerComplete w))
    as (_ & _ & Hb & _ & _ & Ht & _ & _ & _ & _ & _ & _ & _ & _ & _ & _ & Hf).
  cbv zeta. rewrite Hb, Ht. destruct Hf as [started Hf]. rewrite Hf.
  destruct w. repeat split. now exists started.
Qed.

(** C4, at a failing input. In the run of C3 the [isActive] flag is
    withdrawn at 3000 ms, while the second run has its callout timer
    pending; the timer is not cancelled: at 4000 ms and 5500 ms the second
    run sets the phase to context-enhancing and complete, shows the second
    callout, calls the completion callback and posts a second
    ANALYZER_ANIMATION_COMPLETE. When a second run is started by a render
    of the bridge (a SET_SELECT_MODE message during the analysis of an
    absent target), its animation-frame callback survives the withdrawal
    as well and goes on to update the position and to complete. *)
Theorem C4_run_continues_after_withdrawal :
  let w3000 := run (mount desktop) (firstn 5 (fullRun (Some (elementData lead)))) in
  let w := run w3000 [EvTimers 4000; EvTimers 5500] in
  let v3000 := run (mount desktop)
                 [EvMessage (START_ANALYZER_ANIMATION None); EvAnimationFrame 400;
                  EvMessage (SET_SELECT_MODE true);
                  EvAnimationFrame 750; EvAnimationFrame 1500;
                  EvAnimationFrame 2250; EvAnimationFrame 3000] in
  let v := run v3000 [EvAnimationFrame 3750] in
  (isAnalyzing (bridge w3000) = false
   /\ (exists body, timerQueue w3000
                    = [(100, sendHeight_timeout); (4000, timeout 1 body)])
   /\ history w
      = history w3000
        ++ [(1%nat, setScanPhase context_enhancing);
            (1%nat, setShowTargetFound false);
            (1%nat, setShowContextEnhancing true);
            (1%nat, setShowContextEnhancing false);
            (1%nat, setScanPhase complete);
            (1%nat, onComplete)]
   /\ outbox w
      = outbox w3000 ++ [CONTENT_HEIGHT_CHANGED 2400; ANALYZER_ANIMATION_COMPLETE true])
  /\ (isAnalyzing (bridge v3000) = false
      /\ (exists body, frameQueue v3000 = [animate 1 720 0 750 3000 body])
      /\ (exists pos,
            history v
            = history v3000
              ++ [(1%nat, setLaserPosition pos);
                  (1%nat, setScanPhase target_found);
                  (1%nat, setScanPhase complete);
                  (1%nat, onComplete)])
      /\ outbox v = outbox v3000 ++ [ANALYZER_ANIMATION_COMPLETE true]).
Proof.
  vm_compute. repeat split; eexists; reflexivity.
Qed.


End Analyzer.

(* ================================================================== *)
(** * Further properties of the components *)

(** ** Select mode, hover and click *)

Section SelectionSession.

(** With select mode off and no menu open, pointer and key events reach no
    listener. *)
Lemma no_listener_when_off (w : World) :
  settled w -> isSelectMode (bridge w) = false ->
  (forall x y, dispatch (EvMouseMove x y) w = set_flags false false w)
  /\ (contextMenuOpen (menu w) = false ->
      (forall x y target, dispatch (EvClick x y target) w = set_flags false false w)
      /\ (forall key, dispatch (EvKeyDown key) w = set_flags false false w)).
Proof.
  intros Hs Hoff.
  assert (Hs' : settled (set_flags false false w)) by (destruct w; exact Hs).
  split.
  - intros x y. unfold dispatch, task, andThen.
    replace (isSelectMode (bridge (set_flags false false w))) with false
      by (destruct w; symmetry; exact Hoff).
    simpl. unfold skip. now apply flush_settled.
  - intro Hclosed. split.
    + intros x y target. unfold dispatch, task, andThen.
      replace (isSelectMode (bridge (set_flags false false w))) with false
        by (destruct w; symmetry; exact Hoff).
      replace (contextMenuOpen (menu (set_flags false false w))) with false
        by (destruct w; symmetry; exact Hclosed).
      replace (propagationStopped (when false (handleClick x y) (set_flags false false w)))
        with false by (now destruct w).
      destruct target; simpl; unfold skip; now apply flush_settled.
    + intro key. unfold dispatch, task, andThen.
      replace (isSelectMode (bridge (set_flags false false w))) with false
        by (destruct w; symmetry; exact Hoff).
      replace (contextMenuOpen (menu (set_flags false false w))) with false
        by (destruct w; symmetry; exact Hclosed).
      simpl. unfold skip. now apply flush_settled.
Qed.

(** X1. Disabling select mode while it is on, mid-hover or not, clears the
    hover state and posts nothing; a mouse move that follows, wherever it
    lands, reaches no listener: the hover state stays none and nothing is
    posted. *)
Theorem disabling_select_mode_stops_hover :
  forall (w : World) (x y : Z),
    settled w ->
    isSelectMode (bridge w) = true ->
    let w1 := dispatch (EvMessage (SET_SELECT_MODE false)) w in
    let w2 := dispatch (EvMouseMove x y) w1 in
    isSelectMode (bridge w1) = false
    /\ hoveredElement (selection w1) = None
    /\ outbox w1 = outbox w
    /\ hoveredElement (selection w2) = None
    /\ outbox w2 = outbox w.
Proof.
  intros w x y Hs Hon w1 w2.
  assert (H1 : isSelectMode (bridge w1) = false
               /\ hoveredElement (selection w1) = None /\ outbox w1 = outbox w
               /\ failed w1 = false).
  { subst w2 w1. destruct Hs as (Hc & Hd & Hfl). open_world w.
    unfold depsOf in Hc. simpl in Hc, Hd, Hfl, Hon. subst cm bd fl sm.
    unfold dispatch, task, andThen.
    destruct hv, ia, ter; eval_flush2; repeat split. }
  destruct H1 as (Hoff & Hh & Ho & Hf1).
  assert (Hs1 : settled w1)
    by (subst w1; unfold dispatch, task, andThen in *; now apply flush_is_settled).
  destruct (no_listener_when_off w1 Hs1 Hoff) as [Hmove _].
  subst w2. rewrite Hmove.
  repeat split; auto; destruct w1; assumption.
Qed.

(** X1 on the sample page: select mode on, [lead] hovered, then off. *)
Lemma disabling_mid_hover_on_sample :
  let w := run (mount desktop) [EvMessage (SET_SELECT_MODE true); EvMouseMove 10 10] in
  settled w
  /\ isSelectMode (bridge w) = true
  /\ hoveredElement (selection w) = Some lead
  /\ hoveredElement
       (selection (dispatch (EvMouseMove 20 20)
                     (dispatch (EvMessage (SET_SELECT_MODE false)) w))) = None.
Proof.
  intro w.
  assert (Hs : settled w) by (split; [|split]; vm_compute; reflexivity).
  assert (Hm : isSelectMode (bridge w) = true) by (vm_compute; reflexivity).
  destruct (disabling_select_mode_stops_hover w 20 20 Hs Hm) as (_ & _ & _ & H & _).
  split; [exact Hs|]. split; [exact Hm|].
  split; [vm_compute; reflexivity | exact H].
Defined.

(** X2. In select mode a click that hits an element posts exactly one
    ELEMENT_SELECTED message carrying the six-field record of that element,
    prevents the default action and stops propagation, so that no other
    click listener runs: an open context menu stays as it is and a menu
    button under the pointer is not activated; hover and pinned selection
    are unchanged. A click that hits nothing posts no selection. *)
Theorem click_selects_hit_element :
  forall (w : World) (x y : Z) (target : Target),
    settled w ->
    isSelectMode (bridge w) = true ->
    let w' := dispatch (EvClick x y target) w in
    match elementFromPoint (dom w) x y with
    | Some element =>
        outbox w' = outbox w ++ [ELEMENT_SELECTED (Some (elementData element))]
        /\ defaultPrevented w' = true
        /\ propagationStopped w' = true
        /\ menu w' = menu w
        /\ selection w' = selection w
    | None =>
        defaultPrevented w' = false
        /\ selection w' = selection w
        /\ (contextMenuOpen (menu w) = false -> outbox w' = outbox w /\ menu w' = menu w)
    end.
Proof.
  intros w x y target (Hc & Hd & Hfl) Hon.
  open_world w. unfold depsOf in Hc. simpl in Hc, Hd, Hfl, Hon. subst cm bd fl sm.
  unfold dispatch, task, andThen. cbn [dom].
  cbn [isSelectMode bridge set_flags when contextMenuOpen menu].
  unfold handleClick. cbn [dom set_flags].
  destruct (elementFromPoint d x y) as [element|] eqn:Hhit.
  - cmd_norm. eval_flush. repeat split.
  - cbn [propagationStopped set_flags].
    destruct cmo.
    + destruct target; unfold handleMenuAction, handleClickOutside;
        cbn [inMenu negb when contextMenuElement menu set_flags];
        destruct cme; eval_flush; repeat split; congruence.
    + destruct target; cbn [when]; eval_flush; repeat split.
Qed.

(** X2 on the sample page: a click on [lead] with the menu open. *)
Lemma click_on_sample_with_menu_open :
  let w := run (mount desktop)
             [EvMessage (SET_SELECT_MODE true); EvContextMenu 30 30 Page] in
  settled w
  /\ isSelectMode (bridge w) = true
  /\ contextMenuOpen (menu w) = true
  /\ outbox (dispatch (EvClick 10 10 (MenuButton "Extract Element")) w)
     = outbox w ++ [ELEMENT_SELECTED (Some (elementData lead))]
  /\ menu (dispatch (EvClick 10 10 (MenuButton "Extract Element")) w) = menu w.
Proof.
  intro w.
  assert (Hs : settled w) by (split; [|split]; vm_compute; reflexivity).
  assert (Hm : isSelectMode (bridge w) = true) by (vm_compute; reflexivity).
  assert (H := click_selects_hit_element w 10 10 (MenuButton "Extract Element") Hs Hm).
  cbv zeta in H.
  change (elementFromPoint (dom w) 10 10) with (Some lead) in H.
  destruct H as (Ho & _ & _ & Hmenu & _).
  split; [exact Hs|]. split; [exact Hm|].
  split; [vm_compute; reflexivity|]. split; [exact Ho | exact Hmenu].
Defined.

(** X3. In select mode a mouse move over an element makes that element the
    hover target, replacing the previous one, and a mouse move over nothing
    keeps the hover target; hovering posts nothing and does not touch the
    pinned selection. *)
Theorem mouse_move_sets_hover :
  forall (w : World) (x y : Z),
    settled w ->
    isSelectMode (bridge w) = true ->
    let w' := dispatch (EvMouseMove x y) w in
    outbox w' = outbox w
    /\ selectedElementRef (selection w') = selectedElementRef (selection w)
    /\ match elementFromPoint (dom w) x y with
       | Some element =>
           option_map node (hoveredElement (selection w')) = Some (node element)
           /\ (same_node (Some element) (hoveredElement (selection w)) = false ->
               hoveredElement (selection w') = Some element)
       | None => hoveredElement (selection w') = hoveredElement (selection w)
       end.
Proof.
  intros w x y (Hc & Hd & Hfl) Hon.
  open_world w. unfold depsOf in Hc. simpl in Hc, Hd, Hfl, Hon. subst cm bd fl sm.
  unfold dispatch, task, andThen.
  cbn [isSelectMode bridge set_flags when dom].
  unfold handleMouseMove. cbn [dom set_flags selection hoveredElement].
  destruct (elementFromPoint d x y) as [element|] eqn:Hhit.
  - destruct (same_node (Some element) hv) eqn:Hsame; cbn [negb].
    + eval_flush. cbn [outbox selection selectedElementRef hoveredElement].
      repeat split; [|discriminate].
      destruct hv as [h|]; [|discriminate]. simpl in Hsame. simpl.
      apply Nat.eqb_eq in Hsame. now rewrite Hsame.
    + destruct hv as [h|]; unfold same_node in Hsame; simpl in Hsame.
      * eval_flush_with ltac:(rewrite ?Hsame, ?(Nat.eqb_sym (node h)), ?Hsame; cbn [negb]).
        repeat split.
      * eval_flush. repeat split.
  - eval_flush. repeat split.
Qed.

(** X3 on the sample page. *)
Lemma hover_on_sample :
  let w := run (mount desktop) [EvMessage (SET_SELECT_MODE true)] in
  settled w
  /\ isSelectMode (bridge w) = true
  /\ outbox (dispatch (EvMouseMove 10 10) w) = outbox w.
Proof.
  intro w.
  assert (Hs : settled w) by (split; [|split]; vm_compute; reflexivity).
  assert (Hm : isSelectMode (bridge w) = true) by (vm_compute; reflexivity).
  destruct (mouse_move_sets_hover w 10 10 Hs Hm) as (H & _).
  split; [exact Hs|]. split; [exact Hm | exact H].
Defined.

(** X4. A message of a type the bridge does not know changes no state and
    posts nothing. *)
Theorem unknown_message_is_ignored :
  forall (w : World) (type : string),
    settled w ->
    dispatch (EvMessage (OTHER_MESSAGE type)) w = set_flags false false w.
Proof.
  intros w type Hs. unfold dispatch, task, andThen. simpl handleMessage.
  unfold skip. apply flush_settled. destruct w; exact Hs.
Qed.

(** X4 on the freshly mounted sample page. *)
Lemma unknown_message_on_sample :
  settled (mount desktop)
  /\ outbox (dispatch (EvMessage (OTHER_MESSAGE "PING")) (mount desktop)) = [].
Proof.
  assert (Hs : settled (mount desktop)) by (split; [|split]; vm_compute; reflexivity).
  split; [exact Hs|].
  now rewrite (unknown_message_is_ignored (mount desktop) "PING" Hs).
Defined.

End SelectionSession.

(** ** Invariants of every event *)

(** A state property kept by the state cells and by the four messages the
    bridge posts is kept by every event. *)
Section Invariants.

Variable I : World -> Prop.

Hypothesis K_clock : forall v, keeps I (set_clock v).
Hypothesis K_renders : forall v, keeps I (set_renders v).
Hypothesis K_selection : forall v, keeps I (set_selection v).
Hypothesis K_analyzer : forall v, keeps I (set_analyzer v).
Hypothesis K_menu : forall v, keeps I (set_menu v).
Hypothesis K_committed : forall v, keeps I (set_committed v).
Hypothesis K_frameQueue : forall v, keeps I (set_frameQueue v).
Hypothesis K_timerQueue : forall v, keeps I (set_timerQueue v).
Hypothesis K_history : forall v, keeps I (set_history v).
Hypothesis K_nextRun : forall v, keeps I (set_nextRun v).
Hypothesis K_flags : forall a b, keeps I (set_flags a b).
Hypothesis K_failed : forall v, keeps I (set_failed v).
Hypothesis K_rendered : forall w, I w -> I (set_bridge (bridge w) false w).
Hypothesis K_setIsSelectMode : forall v, keeps I (setIsSelectMode v).
Hypothesis K_setIsAnalyzing : forall v, keeps I (setIsAnalyzing v).
Hypothesis K_clearTarget : keeps I (setAnalyzerTarget None).
Hypothesis K_receiveSelected : forall p, keeps I (received p setSelectedElement).
Hypothesis K_receiveTarget : forall p, keeps I (received p setAnalyzerTarget).
Hypothesis K_selected : forall e, keeps I (postMessage (ELEMENT_SELECTED e)).
Hypothesis K_height : keeps I sendHeight.
Hypothesis K_action : forall action el w,
  I w ->
  I (postMessage (CONTEXT_MENU_ACTION action "element" (elementData el)
                    (generatePrompt (dom w) action)
                    (location_pathname (dom w)) (location_href (dom w)) (clock w)) w).
Hypothesis K_complete : keeps I (postMessage (ANALYZER_ANIMATION_COMPLETE true)).

Lemma inv_skip : keeps I skip.
Proof. intros w H. exact H. Qed.

Lemma inv_andThen (c1 c2 : Cmd) : keeps I c1 -> keeps I c2 -> keeps I (andThen c1 c2).
Proof. intros H1 H2 w H. apply H2, H1, H. Qed.

Lemma inv_when (b : bool) (c : Cmd) : keeps I c -> keeps I (when b c).
Proof. intro H. destruct b; [exact H | apply inv_skip]. Qed.

Lemma inv_setHoveredElement v : keeps I (setHoveredElement v).
Proof. intros w. apply K_selection. Qed.
Lemma inv_setSelectedElementRef v : keeps I (setSelectedElementRef v).
Proof. intros w. apply K_selection. Qed.
Lemma inv_setTargetElementRef v : keeps I (setTargetElementRef v).
Proof. intros w. apply K_analyzer. Qed.
Lemma inv_setContextMenuElement v : keeps I (setContextMenuElement v).
Proof. intros w. apply K_menu. Qed.
Lemma inv_setContextMenuOpen v : keeps I (setContextMenuOpen v).
Proof. intros w. apply K_menu. Qed.
Lemma inv_setMenuPosition v : keeps I (setMenuPosition v).
Proof. intros w. apply K_menu. Qed.
Lemma inv_setHighlightRect v : keeps I (setHighlightRect v).
Proof. intros w. apply K_menu. Qed.
Lemma inv_requestAnimationFrame t : keeps I (requestAnimationFrame t).
Proof. intros w. apply K_frameQueue. Qed.
Lemma inv_setTimeout t delay : keeps I (setTimeout t delay).
Proof. intros w. apply K_timerQueue. Qed.
Lemma inv_preventDefault : keeps I preventDefault.
Proof. intros w. apply K_flags. Qed.
Lemma inv_stopPropagation : keeps I stopPropagation.
Proof. intros w. apply K_flags. Qed.

Lemma inv_closeMenu : keeps I closeMenu.
Proof.
  unfold closeMenu. repeat apply inv_andThen.
  - apply inv_setContextMenuOpen.
  - apply inv_setContextMenuElement.
  - apply inv_setHighlightRect.
Qed.

Lemma inv_handleAnalyzerComplete : keeps I handleAnalyzerComplete.
Proof.
  unfold handleAnalyzerComplete. repeat apply inv_andThen.
  - apply K_setIsAnalyzing.
  - apply K_clearTarget.
  - apply K_complete.
Qed.

Lemma inv_handleMessage data : keeps I (handleMessage data).
Proof.
  destruct data; simpl.
  - apply K_setIsSelectMode.
  - apply K_receiveSelected.
  - apply inv_andThen; [apply K_setIsAnalyzing | apply K_receiveTarget].
  - apply inv_skip.
Qed.

Lemma inv_handleMouseMove x y : keeps I (handleMouseMove x y).
Proof.
  intros w H. unfold handleMouseMove.
  destruct (elementFromPoint (dom w) x y); [|exact H].
  destruct (negb _); [now apply inv_setHoveredElement | exact H].
Qed.

Lemma inv_handleClick x y : keeps I (handleClick x y).
Proof.
  intros w H. unfold handleClick.
  destruct (elementFromPoint (dom w) x y); [|exact H].
  revert w H. repeat apply inv_andThen.
  - apply K_selected.
  - apply inv_preventDefault.
  - apply inv_stopPropagation.
Qed.

Lemma inv_handleKeyDown key : keeps I (handleKeyDown key).
Proof.
  unfold handleKeyDown. destruct (String.eqb key "Escape"); [|apply inv_skip].
  apply inv_andThen; [apply inv_setHoveredElement | apply K_selected].
Qed.

Lemma inv_handleContextMenu x y : keeps I (handleContextMenu x y).
Proof.
  unfold handleContextMenu. apply inv_andThen; [apply inv_preventDefault|].
  intros w H. destruct (elementFromPoint (dom w) x y); [|exact H].
  apply inv_setContextMenuOpen, inv_setMenuPosition, inv_setHighlightRect,
    inv_setContextMenuElement, H.
Qed.

Lemma inv_handleClickOutside b : keeps I (handleClickOutside b).
Proof.
  unfold handleClickOutside. destruct (negb b); [apply inv_closeMenu | apply inv_skip].
Qed.

Lemma inv_handleEscape key : keeps I (handleEscape key).
Proof.
  unfold handleEscape.
  destruct (String.eqb key "Escape"); [apply inv_closeMenu | apply inv_skip].
Qed.

Lemma inv_handleMenuAction action : keeps I (handleMenuAction action "element").
Proof.
  intros w H. unfold handleMenuAction.
  destruct (contextMenuElement (menu w)); [|exact H].
  unfold andThen. apply inv_closeMenu. now apply K_action.
Qed.

Lemma inv_perform r a : keeps I (perform r a).
Proof.
  intros w H. unfold perform.
  assert (H' : I (set_history (history w ++ [(r, a)]) w)) by now apply K_history.
  destruct a; try (now apply K_analyzer).
  now apply inv_handleAnalyzerComplete.
Qed.

Lemma inv_exec r s : keeps I (exec r s).
Proof.
  induction s as [dir dur k IH | a k IH | body IHb delay k IH |]; simpl.
  - intros w. apply inv_requestAnimationFrame.
  - apply inv_andThen; [apply inv_perform | exact IH].
  - apply inv_andThen; [apply inv_setTimeout | exact IH].
  - apply inv_skip.
Qed.

Lemma inv_runTask t : keeps I (runTask t).
Proof.
  destruct t as [r sp ep dur st k | r body |]; simpl.
  - intros w H. unfold animateFrame.
    destruct (negb _).
    + apply inv_requestAnimationFrame. now apply inv_perform.
    + apply inv_exec. now apply inv_perform.
  - apply inv_exec.
  - apply K_height.
Qed.

Lemma inv_renderBridge : keeps I renderBridge.
Proof.
  intros w H. unfold renderBridge. destruct (bridgeDirty w); [|exact H].
  apply K_renders. now apply K_rendered.
Qed.

Lemma inv_renderChildren : keeps I renderChildren.
Proof.
  intros w H. unfold renderChildren. cbv zeta.
  match goal with |- I (?c w) => cut (keeps I c); [intro G; now apply G|] end.
  repeat lazymatch goal with
    | |- keeps I (andThen _ _) => apply inv_andThen
    | |- keeps I (when _ _) => apply inv_when
    | |- keeps I (set_committed _) => apply K_committed
    end.
  - unfold hoverEffect. destruct (negb _);
      [apply inv_setHoveredElement | apply inv_skip].
  - intros w'. unfold selectionResolveEffect.
    destruct (selectedElement (bridge w)); [|apply inv_setSelectedElementRef].
    destruct (matchingElement _ _); [apply inv_setSelectedElementRef | apply K_failed].
  - intros w'. unfold analyzerResolveEffect.
    destruct (analyzerTarget (bridge w)); [|apply inv_setTargetElementRef].
    destruct (matchingElement _ _); [apply inv_setTargetElementRef | apply K_failed].
  - unfold sequenceEffect. destruct (negb _); [apply inv_skip|].
    intros w' H'. apply inv_exec. now apply K_nextRun.
  - unfold highlightEffect.
    destruct (contextMenuElement (menu w)); [apply inv_setHighlightRect | apply inv_skip].
Qed.

Lemma inv_unlessFailed (c : Cmd) : keeps I c -> keeps I (unlessFailed c).
Proof. intros H w Hw. unfold unlessFailed. destruct (failed w); [exact Hw | now apply H]. Qed.

Lemma inv_flush : keeps I flush.
Proof.
  unfold flush. apply inv_unlessFailed.
  repeat apply inv_andThen;
    [apply inv_renderBridge | | apply inv_unlessFailed]; apply inv_renderChildren.
Qed.

Lemma inv_task c : keeps I c -> keeps I (task c).
Proof. intro H. apply inv_andThen; [exact H | apply inv_flush]. Qed.

Lemma inv_fold {A} (f : A -> Cmd) (l : list A) :
  (forall x, keeps I (f x)) ->
  keeps I (fun w => fold_left (fun acc x => f x acc) l w).
Proof.
  intro H. induction l as [|a l IH]; simpl; intros w Hw; [exact Hw|].
  apply IH. now apply H.
Qed.

Lemma inv_dispatch e : keeps I (dispatch e).
Proof.
  intros w H. unfold dispatch.
  assert (H0 : I (set_flags false false w)) by now apply K_flags.
  set (w0 := set_flags false false w) in *.
  destruct e as [data | x y | x y target | key | x y target | | now | now].
  - exact (inv_task _ (inv_handleMessage data) w0 H0).
  - exact (inv_task _ (inv_when _ _ (inv_handleMouseMove x y)) w0 H0).
  - refine (inv_task _ (inv_andThen _ _ (inv_when _ _ (inv_handleClick x y)) _) w0 H0).
    intros w' H'. destruct (propagationStopped w'); [exact H'|].
    revert w' H'. apply inv_andThen.
    + destruct target; try apply inv_skip.
      apply inv_when, inv_handleMenuAction.
    + apply inv_when, inv_handleClickOutside.
  - exact (inv_task _ (inv_andThen _ _ (inv_when _ _ (inv_handleKeyDown key))
                         (inv_when _ _ (inv_handleEscape key))) w0 H0).
  - exact (inv_task _ (inv_andThen _ _ (inv_handleContextMenu x y)
                         (inv_when _ _ (inv_handleClickOutside _))) w0 H0).
  - exact (inv_task _ (inv_setTimeout _ _) w0 H0).
  - apply (inv_fold (fun t => task (runTask t))).
    + intro t. apply inv_task, inv_runTask.
    + now apply K_frameQueue, K_clock.
  - apply (inv_fold (fun p => task (runTask (snd p)))).
    + intro t. apply inv_task, inv_runTask.
    + now apply K_timerQueue, K_clock.
Qed.

Lemma inv_step e : keeps I (step e).
Proof.
  intros w H. unfold step, orphaned.
  destruct (failed w); [|now apply inv_dispatch].
  destruct e; try exact H; now apply inv_dispatch.
Qed.

Lemma inv_any_run (events : list Event) (w : World) : I w -> I (run w events).
Proof. unfold run. exact (inv_fold step events inv_step w). Qed.

End Invariants.

(** ** What holds in every reachable world *)

Section Reachable.

Ltac kept :=
  unfold keeps; intros;
  repeat match goal with x : World |- _ => destruct x end;
  assumption.

Lemma fresh_clearTarget : keeps fresh (setAnalyzerTarget None).
Proof.
  intros [d c [sm se ia at_]] [H1 H2]. split; [exact H1|]. intros o [=].
Qed.

Lemma fresh_receiveSelected p : keeps fresh (received p setSelectedElement).
Proof.
  intros [d c [sm se ia at_] bd rn sl an mn cm fq tq ob hs nr no dp ps fl] [H1 H2].
  split; simpl in *.
  - intros o Ho. destruct p; [|discriminate]. injection Ho as <-. simpl. lia.
  - intros o Ho. specialize (H2 o Ho). lia.
Qed.

Lemma fresh_receiveTarget p : keeps fresh (received p setAnalyzerTarget).
Proof.
  intros [d c [sm se ia at_] bd rn sl an mn cm fq tq ob hs nr no dp ps fl] [H1 H2].
  split; simpl in *.
  - intros o Ho. specialize (H1 o Ho). lia.
  - intros o Ho. destruct p; [|discriminate]. injection Ho as <-. simpl. lia.
Qed.

Lemma fresh_dispatch (e : Event) (w : World) : fresh w -> fresh (dispatch e w).
Proof.
  apply (inv_dispatch fresh); try kept.
  - apply fresh_clearTarget.
  - apply fresh_receiveSelected.
  - apply fresh_receiveTarget.
Qed.

(** Every world the component can reach holds only objects it received. *)
Lemma run_fresh (events : list Event) (w : World) : fresh w -> fresh (run w events).
Proof.
  apply (inv_any_run fresh); try kept.
  - apply fresh_clearTarget.
  - apply fresh_receiveSelected.
  - apply fresh_receiveTarget.
Qed.

Lemma mount_fresh (d : Dom) : fresh (mount d).
Proof. split; intros o [=]. Qed.

Lemma postsWellFormed_post (d : Dom) (m : Outbound) (w : World) :
  wellFormed d m -> postsWellFormed d w -> postsWellFormed d (postMessage m w).
Proof.
  intros Hm [Hd Hf]. split; [destruct w; exact Hd|].
  destruct w; simpl in *. apply Forall_app. split; [exact Hf | now constructor].
Qed.

Lemma postsWellFormed_run (d : Dom) (events : list Event) (w : World) :
  postsWellFormed d w -> postsWellFormed d (run w events).
Proof.
  apply (inv_any_run (postsWellFormed d)); try kept.
  - intros sel w' H. now apply postsWellFormed_post.
  - intros w' H. unfold sendHeight. apply postsWellFormed_post; [|exact H].
    simpl. lia.
  - intros action el w' H. apply postsWellFormed_post; [|exact H].
    destruct H as [<- _]. simpl. auto.
  - intros w' H. now apply postsWellFormed_post.
Qed.

(** X5. Whatever events the mounted bridge receives, every message it has
    posted is well formed: a reported height lies between 800 and 6400, a
    context-menu action has scope "element" and carries the instruction
    derived from its action name and the path and address of the page, and
    a completion reports success. *)
Theorem posted_messages_well_formed :
  forall (d : Dom) (events : list Event) (m : Outbound),
    In m (outbox (run (mount d) events)) -> wellFormed d m.
Proof.
  intros d events m H.
  assert (Hinv : postsWellFormed d (run (mount d) events)).
  { apply postsWellFormed_run. split; [reflexivity | constructor]. }
  destruct Hinv as [_ Hf]. rewrite Forall_forall in Hf. now apply Hf.
Qed.

(** X5 on a page 9000 pixels high. *)
Lemma posted_height_on_tall_page :
  In (CONTENT_HEIGHT_CHANGED 6400)
     (outbox (run (mount (page 1280 720 9000)) [EvResize; EvTimers 100]))
  /\ 800 <= 6400 <= 6400.
Proof.
  assert (H : In (CONTENT_HEIGHT_CHANGED 6400)
                (outbox (run (mount (page 1280 720 9000)) [EvResize; EvTimers 100])))
    by (vm_compute; auto).
  split; [exact H|].
  exact (posted_messages_well_formed _ _ _ H).
Defined.

End Reachable.

(** ** The pinned highlight *)

Section PinnedHighlight.


(** X6. A SET_SELECTED_ELEMENT message posts nothing. With a record, the
    resolve effect scans the document for it: when the scan returns, the
    highlight is pinned on the element it found, or on none when it found
    nothing, no effect fails, and the hover target, select mode and the
    context menu are as before; when the scan throws (the recorded tag
    name is not a selector), the effect fails and the tree is removed.
    Without a record, a pinned highlight is cleared, no effect fails, and
    the hover target, select mode and the context menu are as before. *)
Theorem parent_pins_highlight :
  forall (w : World) (payload : option SelectedElement),
    settled w -> fresh w ->
    let w' := dispatch (EvMessage (SET_SELECTED_ELEMENT payload)) w in
    let kept :=
      failed w' = false
      /\ hoveredElement (selection w') = hoveredElement (selection w)
      /\ isSelectMode (bridge w') = isSelectMode (bridge w)
      /\ menu w' = menu w in
    outbox w' = outbox w
    /\ match payload with
       | Some rec =>
           match matchingElement (dom w) rec with
           | Returns found => selectedElementRef (selection w') = found /\ kept
           | Throws => failed w' = true
           end
       | None =>
           match selectedElement (bridge w) with
           | Some _ => selectedElementRef (selection w') = None
           | None => selectedElementRef (selection w') = selectedElementRef (selection w)
           end /\ kept
       end.
Proof.
  intros w payload (Hc & Hd & Hfl) [Hf _].
  open_world w. unfold depsOf in Hc. simpl in Hc, Hd, Hfl, Hf. subst cm bd fl.
  assert (Hneq : forall o, se = Some o -> Nat.eqb (oid o) no = false).
  { intros o Ho. apply Nat.eqb_neq. specialize (Hf o Ho). lia. }
  unfold dispatch, task, andThen. cbn [dom bridge selectedElement selection].
  destruct payload as [rec|].
  - destruct (matchingElement d rec) as [found|] eqn:Hm.
    + destruct se as [[oo ov]|]; cmd_norm; conds;
        try (specialize (Hneq _ eq_refl); simpl in Hneq; rewrite ?Hneq; conds).
      all: destruct ia, ter;
        eval_flush2_with ltac:(rewrite ?Hneq, ?Hm; conds; cmd_norm; conds);
        repeat split.
    + destruct se as [[oo ov]|]; cmd_norm; conds;
        try (specialize (Hneq _ eq_refl); simpl in Hneq; rewrite ?Hneq; conds).
      all: destruct ia, ter;
        eval_thrown_with ltac:(rewrite ?Hneq, ?Hm; conds; cmd_norm; conds);
        repeat split.
  - destruct se as [[oo ov]|]; cmd_norm; conds.
    all: destruct ia, ter; eval_flush2; repeat split.
Qed.

(** X6 on the sample page: the record of [note], a stale record, and a
    record with an empty tag name. *)
Lemma pinning_on_sample :
  let w := mount desktop in
  let blank := mkSelected "" "note" "" (Some "Bye") "" "" in
  settled w /\ fresh w
  /\ selectedElementRef
       (selection (dispatch (EvMessage (SET_SELECTED_ELEMENT (Some (elementData note)))) w))
     = Some note
  /\ selectedElementRef
       (selection (dispatch (EvMessage (SET_SELECTED_ELEMENT (Some stale))) w))
     = None
  /\ failed (dispatch (EvMessage (SET_SELECTED_ELEMENT (Some blank))) w) = true.
Proof.
  intros w blank.
  assert (Hs : settled w) by (split; [|split]; vm_compute; reflexivity).
  assert (Hf : fresh w) by (split; intros o Ho; vm_compute in Ho; discriminate Ho).
  pose proof (parent_pins_highlight w (Some (elementData note)) Hs Hf) as (_ & H1).
  pose proof (parent_pins_highlight w (Some stale) Hs Hf) as (_ & H2).
  pose proof (parent_pins_highlight w (Some blank) Hs Hf) as (_ & H3).
  change (matchingElement (dom w) (elementData note)) with (Returns (Some note)) in H1.
  change (matchingElement (dom w) stale) with (@Returns (option Element) None) in H2.
  change (matchingElement (dom w) blank) with (@Throws (option Element)) in H3.
  cbv beta iota zeta in H1, H2, H3.
  split; [exact Hs|]. split; [exact Hf|].
  split; [exact (proj1 H1)|]. split; [exact (proj1 H2) | exact H3].
Defined.



End PinnedHighlight.

(** ** A context-menu session *)

Section ContextSession.

(** X8. While the context menu is open: Escape closes it and clears the
    captured element and the highlight, and in select mode the same key
    press also posts the selection-cleared message; any other key leaves
    the menu alone. A contextmenu event outside the menu closes it and
    clears the capture even when it hits an element: the menu does not
    reopen on that event. Outside select mode a click outside the menu
    closes and clears it, and a click inside the menu box leaves it open. *)
Theorem open_menu_closes :
  forall (w : World) (x y : Z) (key : string),
    settled w ->
    contextMenuOpen (menu w) = true ->
    let closed m := contextMenuOpen m = false /\ contextMenuElement m = None
                    /\ highlightRect m = None in
    let esc := dispatch (EvKeyDown "Escape") w in
    let right := dispatch (EvContextMenu x y Page) w in
    (closed (menu esc)
     /\ menuPosition (menu esc) = menuPosition (menu w)
     /\ outbox esc
        = outbox w ++ (if isSelectMode (bridge w) then [ELEMENT_SELECTED None] else []))
    /\ (String.eqb key "Escape" = false ->
        menu (dispatch (EvKeyDown key) w) = menu w)
    /\ (closed (menu right) /\ defaultPrevented right = true /\ outbox right = outbox w)
    /\ (isSelectMode (bridge w) = false ->
        (closed (menu (dispatch (EvClick x y Page) w))
         /\ outbox (dispatch (EvClick x y Page) w) = outbox w)
        /\ menu (dispatch (EvClick x y MenuBox) w) = menu w).
Proof.
  intros w x y key (Hc & Hd & Hfl) Hopen.
  open_world w. unfold depsOf in Hc. simpl in Hc, Hd, Hfl, Hopen. subst cm bd fl cmo.
  cbv zeta. split; [|split; [|split]].
  - unfold dispatch, task, andThen.
    replace (handleKeyDown "Escape")
      with (andThen (setHoveredElement None) (handleElementSelect None)) by reflexivity.
    replace (handleEscape "Escape") with closeMenu by reflexivity.
    destruct sm, hv, cme; eval_flush; repeat split;
      simpl; now rewrite app_nil_r.
  - intro Hkey. unfold dispatch, task, andThen, handleKeyDown, handleEscape.
    rewrite Hkey. destruct sm; cmd_norm; eval_flush; reflexivity.
  - unfold dispatch, task, andThen, handleContextMenu, handleClickOutside.
    cbn [inMenu negb]. cmd_norm.
    destruct (elementFromPoint d x y), cme; eval_flush; repeat split.
  - intro Hoff. simpl in Hoff. subst sm. split.
    + unfold dispatch, task, andThen, handleClickOutside.
      cbn [inMenu negb]. cmd_norm. destruct cme; eval_flush; repeat split.
    + unfold dispatch, task, andThen, handleClickOutside.
      cbn [inMenu negb]. cmd_norm. eval_flush. reflexivity.
Qed.

(** X8 on the sample page: the menu opened on [lead], then a second
    contextmenu event elsewhere on the page. *)
Lemma second_right_click_on_sample :
  let w := run (mount desktop) [EvContextMenu 30 30 Page] in
  settled w
  /\ contextMenuOpen (menu w) = true
  /\ contextMenuOpen (menu (dispatch (EvContextMenu 200 200 Page) w)) = false.
Proof.
  intro w.
  assert (Hs : settled w) by (split; [|split]; vm_compute; reflexivity).
  assert (Ho : contextMenuOpen (menu w) = true) by (vm_compute; reflexivity).
  destruct (open_menu_closes w 200 200 "a" Hs Ho) as (_ & _ & ((H & _) & _) & _).
  split; [exact Hs|]. split; [exact Ho | exact H].
Defined.

(** X9. Outside select mode, a contextmenu event that hits an element
    while the menu is closed opens the menu on that element, with the
    highlight on its bounds; a click on a menu button then posts exactly
    one CONTEXT_MENU_ACTION message carrying the action name, the scope
    "element", the six-field record of the captured element, the
    instruction derived from the action name, the path and address of the
    page and the time of the click, and closes the menu, clearing the
    capture and the highlight. *)
Theorem right_click_then_action :
  forall (w : World) (x y x' y' : Z) (target : Target) (e : Element) (action : string),
    settled w ->
    isSelectMode (bridge w) = false ->
    contextMenuOpen (menu w) = false ->
    elementFromPoint (dom w) x y = Some e ->
    let w1 := dispatch (EvContextMenu x y target) w in
    let w2 := dispatch (EvClick x' y' (MenuButton action)) w1 in
    (contextMenuOpen (menu w1) = true
     /\ contextMenuElement (menu w1) = Some e
     /\ highlightRect (menu w1) = Some (getBoundingClientRect e)
     /\ outbox w1 = outbox w)
    /\ outbox w2
       = outbox w
         ++ [CONTEXT_MENU_ACTION action "element" (elementData e)
               (generatePrompt (dom w) action)
               (location_pathname (dom w)) (location_href (dom w)) (clock w)]
    /\ contextMenuOpen (menu w2) = false
    /\ contextMenuElement (menu w2) = None
    /\ highlightRect (menu w2) = None.
Proof.
  intros w x y x' y' target e action (Hc & Hd & Hfl) Hoff Hclosed Hhit.
  open_world w. unfold depsOf in Hc. simpl in Hc, Hd, Hfl, Hoff, Hclosed, Hhit.
  subst cm bd fl sm cmo. cbv zeta.
  (destruct cme as [e0|]; [destruct (Nat.eqb (node e0) (node e)) eqn:Hn|]);
  match goal with |- context [dispatch (EvContextMenu x y target) ?W] =>
    eassert (E1 : dispatch (EvContextMenu x y target) W = _);
    [ unfold dispatch, task, andThen, handleContextMenu;
      cmd_norm; rewrite Hhit; cmd_norm;
      eval_flush_with ltac:(rewrite ?Hn; conds; cmd_norm; conds); reflexivity
    | rewrite E1; clear E1 ]
  end;
  (split; [repeat split|]);
  unfold dispatch, task, andThen, handleMenuAction, handleClickOutside;
    cbn [inMenu negb]; cmd_norm; eval_flush; repeat split.
Qed.

(** X9 on the sample page. *)
Lemma extract_action_on_sample :
  let w := mount desktop in
  let w2 := run w [EvContextMenu 30 30 Page; EvClick 40 40 (MenuButton "Extract Element")] in
  settled w
  /\ elementFromPoint (dom w) 30 30 = Some lead
  /\ outbox w2
     = [CONTEXT_MENU_ACTION "Extract Element" "element" (elementData lead)
          "Please @create_page with the selected element."
          "/pages/home" "http://localhost:3000/pages/home" 0].
Proof.
  intros w w2.
  assert (Hs : settled w) by (split; [|split]; vm_compute; reflexivity).
  assert (Hhit : elementFromPoint (dom w) 30 30 = Some lead) by reflexivity.
  destruct (right_click_then_action w 30 30 40 40 Page lead "Extract Element"
              Hs eq_refl eq_refl Hhit) as (_ & H & _).
  split; [exact Hs|]. split; [exact Hhit|].
  subst w2. rewrite run_cons by reflexivity.
  rewrite run_cons by (vm_compute; reflexivity). rewrite run_nil. exact H.
Defined.

End ContextSession.

(** ** The height reporter *)

Section HeightReports.

Lemma insertTimer_same (due : Z) (t : Task) (n : nat) :
  insertTimer due t (repeat (due, t) n) = repeat (due, t) (S n).
Proof.
  induction n as [|n IH]; simpl; [reflexivity|].
  rewrite Z.leb_refl. simpl in IH. now rewrite IH.
Qed.

Lemma filter_repeat {A} (f : A -> bool) (a : A) (n : nat) :
  filter f (repeat a n) = if f a then repeat a n else [].
Proof.
  induction n as [|n IH]; simpl; [now destruct (f a)|].
  rewrite IH. now destruct (f a).
Qed.

Lemma run_app (w : World) (l1 l2 : list Event) :
  run w (l1 ++ l2) = run (run w l1) l2.
Proof. unfold run. apply fold_left_app. Qed.

Lemma resize_schedules_report (w : World) :
  settled w ->
  dispatch EvResize w
  = set_timerQueue (insertTimer (clock w + 100) sendHeight_timeout (timerQueue w))
      (set_flags false false w).
Proof.
  intro H. unfold dispatch, task, andThen. rewrite flush_settled; [reflexivity|].
  destruct w; exact H.
Qed.

Lemma resizes_pending (d : Dom) (n : nat) :
  run (mount d) (repeat EvResize n)
  = set_timerQueue (repeat (100, sendHeight_timeout) (S n)) (mount d).
Proof.
  induction n as [|n IH]; [reflexivity|].
  change (repeat EvResize (S n)) with (EvResize :: repeat EvResize n).
  rewrite repeat_cons, run_app, IH. unfold run at 1. cbn [fold_left].
  rewrite step_mounted by reflexivity.
  rewrite resize_schedules_report by (repeat split).
  cbn [clock timerQueue set_timerQueue set_flags mount measureAndSendHeight setTimeout].
  change (0 + 100) with 100. rewrite insertTimer_same. reflexivity.
Qed.

Lemma reports_posted (w : World) (due : Z) (n : nat) :
  settled w ->
  outbox (fold_left (fun acc p => task (runTask (snd p)) acc)
            (repeat (due, sendHeight_timeout) n) w)
  = outbox w
    ++ repeat (CONTENT_HEIGHT_CHANGED (Z.max (Z.min (measuredHeight (dom w)) 6400) 800)) n.
Proof.
  revert w. induction n as [|n IH]; intros w H; simpl.
  - now rewrite app_nil_r.
  - assert (S1 : settled (sendHeight w)) by (destruct w; exact H).
    unfold task at 2, andThen. simpl runTask. rewrite (flush_settled _ S1).
    rewrite (IH _ S1). destruct w; simpl. now rewrite <- app_assoc.
Qed.

(** X10. The height reporter does not coalesce: mounting and each of [n]
    ResizeObserver callbacks start a timeout of their own, so once 100 ms
    have passed the parent receives [n + 1] CONTENT_HEIGHT_CHANGED messages,
    all with the clamped height of the document, and before that none. *)
Theorem every_resize_is_reported :
  forall (d : Dom) (n : nat) (now : Z),
    outbox (run (mount d) (repeat EvResize n ++ [EvTimers now]))
    = if 100 <=? now
      then repeat (CONTENT_HEIGHT_CHANGED (Z.max (Z.min (measuredHeight d) 6400) 800)) (S n)
      else [].
Proof.
  intros d n now. rewrite run_app, resizes_pending.
  unfold run. cbn [fold_left]. rewrite step_mounted by reflexivity. unfold dispatch.
  cbn [clock timerQueue set_timerQueue set_flags set_clock mount
         measureAndSendHeight setTimeout].
  rewrite !filter_repeat. cbn [fst].
  replace (100 <=? Z.max 0 now) with (100 <=? now)
    by (destruct (Z.leb_spec 100 now), (Z.leb_spec 100 (Z.max 0 now)); lia).
  destruct (100 <=? now); cbn [negb].
  - rewrite reports_posted by (repeat split). reflexivity.
  - reflexivity.
Qed.

End HeightReports.

(** ** The easing of a sweep *)

Section Easing.

Lemma progress_bounds (elapsed duration : Z) :
  0 <= elapsed -> 0 < duration ->
  (0 <= Qmin (inject_Z elapsed / inject_Z duration) 1 <= 1)%Q.
Proof.
  intros He Hd. split; [|apply Q.le_min_r].
  apply Q.min_glb; [|discriminate].
  apply Qle_shift_div_l.
  - change 0%Q with (inject_Z 0). now rewrite <- Zlt_Qlt.
  - rewrite Qmult_0_l. change 0%Q with (inject_Z 0). now rewrite <- Zle_Qle.
Qed.

Lemma progress_done (elapsed duration : Z) :
  0 < duration -> duration <= elapsed ->
  (Qmin (inject_Z elapsed / inject_Z duration) 1 == 1)%Q.
Proof.
  intros Hd He. apply Q.min_r.
  apply Qle_shift_div_l.
  - change 0%Q with (inject_Z 0). now rewrite <- Zlt_Qlt.
  - rewrite Qmult_1_l. now rewrite <- Zle_Qle.
Qed.

Lemma progress_running (elapsed duration : Z) :
  0 < duration -> elapsed < duration ->
  (Qmin (inject_Z elapsed / inject_Z duration) 1 < 1)%Q.
Proof.
  intros Hd He.
  apply Qle_lt_trans with (inject_Z elapsed / inject_Z duration)%Q; [apply Q.le_min_l|].
  apply Qlt_shift_div_r.
  - change 0%Q with (inject_Z 0). now rewrite <- Zlt_Qlt.
  - rewrite Qmult_1_l. now rewrite <- Zlt_Qlt.
Qed.

Lemma cube_bounds (x : Q) : (0 <= x <= 1 -> 0 <= x ^ 3 <= 1)%Q.
Proof.
  intros [H0 H1].
  assert (E : (x ^ 3 == x * (x * x))%Q) by (simpl; ring).
  rewrite E.
  assert (H2 : (0 <= x * x)%Q) by now apply Qmult_le_0_compat.
  assert (H3 : (x * x <= 1)%Q).
  { apply Qle_trans with (1 * x)%Q; [|now rewrite Qmult_1_l].
    now apply Qmult_le_compat_r. }
  split; [now apply Qmult_le_0_compat|].
  apply Qle_trans with (1 * (x * x))%Q; [|now rewrite Qmult_1_l].
  now apply Qmult_le_compat_r.
Qed.

Lemma ease_bounds (p : Q) : (0 <= p <= 1 -> 0 <= 1 - (1 - p) ^ 3 <= 1)%Q.
Proof.
  intros [H0 H1].
  assert (S0 : forall x : Q, (x <= 1 -> 0 <= 1 - x)%Q).
  { intros x Hx. unfold Qminus. now rewrite <- Qle_minus_iff. }
  assert (S1 : forall x : Q, (0 <= x -> 1 - x <= 1)%Q).
  { intros x Hx. apply Qle_trans with (1 - 0)%Q; [|discriminate].
    unfold Qminus. apply Qplus_le_r. now apply Qopp_le_compat. }
  destruct (cube_bounds (1 - p)%Q) as [C0 C1]; [split; auto|].
  split; auto.
Qed.

End Easing.

(** ** What the sweeps keep true of the overlay *)

Section Sweeps.

Lemma between (a b e : Q) :
  (0 <= e <= 1 -> Qmin a b <= a + (b - a) * e <= Qmax a b)%Q.
Proof.
  intros [H0 H1].
  destruct (Qlt_le_dec b a) as [L|L].
  - rewrite (Q.min_r a b), (Q.max_l a b) by now apply Qlt_le_weak.
    split; nra.
  - rewrite (Q.min_l a b), (Q.max_r a b) by exact L.
    split; nra.
Qed.

Lemma position_bounds (h startPos endPos : Z) (e : Q) :
  0 <= h ->
  (startPos = 0 /\ endPos = h) \/ (startPos = h /\ endPos = 0) ->
  (0 <= e <= 1)%Q ->
  (0 <= inject_Z startPos + (inject_Z endPos - inject_Z startPos) * e <= inject_Z h)%Q.
Proof.
  intros Hh Hp He.
  assert (Hq : (0 <= inject_Z h)%Q)
    by (change 0%Q with (inject_Z 0); now rewrite <- Zle_Qle).
  destruct (between (inject_Z startPos) (inject_Z endPos) e He) as [B1 B2].
  destruct Hp as [[-> ->]|[-> ->]]; change (inject_Z 0) with 0%Q in *.
  - rewrite (Q.min_l 0 (inject_Z h)), (Q.max_r 0 (inject_Z h)) in * by exact Hq.
    now split.
  - rewrite (Q.min_r (inject_Z h) 0), (Q.max_l (inject_Z h) 0) in * by exact Hq.
    now split.
Qed.

(** X11. A frame of a sweep of positive duration sets the laser between
    the start and the end position of the sweep, at the start position when
    no time has passed and at the end position once the duration is over;
    it requests itself again while the duration is not over and resumes the
    awaiting sequence in the first frame at or after it. *)
Theorem sweep_frame :
  forall (run : nat) (startPos endPos duration startTime : Z) (resolve : Script)
         (w : World),
    0 < duration ->
    exists pos : Q,
      animateFrame run startPos endPos duration startTime resolve w
      = (if duration <=? clock w - startTime
         then exec run resolve
         else requestAnimationFrame
                (animate run startPos endPos duration startTime resolve))
          (perform run (setLaserPosition pos) w)
      /\ (clock w = startTime -> (pos == inject_Z startPos)%Q)
      /\ (duration <= clock w - startTime -> (pos == inject_Z endPos)%Q)
      /\ (startTime <= clock w ->
          (Qmin (inject_Z startPos) (inject_Z endPos) <= pos
           <= Qmax (inject_Z startPos) (inject_Z endPos))%Q).
Proof.
  intros run startPos endPos duration startTime resolve w Hd.
  unfold animateFrame. cbv zeta.
  set (progress := Qmin (inject_Z (clock w - startTime) / inject_Z duration) 1).
  exists (inject_Z startPos
          + (inject_Z endPos - inject_Z startPos) * (1 - (1 - progress) ^ 3))%Q.
  repeat split.
  - destruct (Z.leb_spec duration (clock w - startTime)) as [L|L].
    + assert (P : (progress == 1)%Q) by now apply progress_done.
      assert (B : Qle_bool 1 progress = true)
        by (apply Qle_bool_iff; rewrite P; apply Qle_refl).
      now rewrite B.
    + assert (P : (progress < 1)%Q) by now apply progress_running.
      destruct (Qle_bool 1 progress) eqn:B; [|reflexivity].
      apply Qle_bool_iff in B. exfalso. exact (Qlt_not_le _ _ P B).
  - intro E. subst progress. rewrite E, Z.sub_diag.
    assert (P : (Qmin (inject_Z 0 / inject_Z duration) 1 == 0)%Q).
    { rewrite Q.min_l; [reflexivity|]. discriminate. }
    rewrite P. simpl. ring.
  - intro L. assert (P : (progress == 1)%Q) by now apply progress_done.
    rewrite P. simpl. ring.
  - apply between, ease_bounds, progress_bounds; lia.
  - apply between, ease_bounds, progress_bounds; lia.
Qed.

(** X11 for the frame that ends the first sweep on the sample page. *)
Lemma sweep_frame_on_sample :
  0 < 750
  /\ exists pos : Q,
       animateFrame 0 0 720 750 0 Return (set_clock 750 (mount desktop))
       = (if 750 <=? clock (set_clock 750 (mount desktop)) - 0
          then exec 0 Return
          else requestAnimationFrame (animate 0 0 720 750 0 Return))
           (perform 0 (setLaserPosition pos) (set_clock 750 (mount desktop)))
       /\ (clock (set_clock 750 (mount desktop)) = 0 -> (pos == inject_Z 0)%Q)
       /\ (750 <= clock (set_clock 750 (mount desktop)) - 0 -> (pos == inject_Z 720)%Q)
       /\ (0 <= clock (set_clock 750 (mount desktop)) ->
           (Qmin (inject_Z 0) (inject_Z 720) <= pos
            <= Qmax (inject_Z 0) (inject_Z 720))%Q).
Proof.
  split; [lia|].
  apply (sweep_frame 0 0 720 750 0 Return (set_clock 750 (mount desktop))). lia.
Defined.

End Sweeps.

(** ** The overlay in every reachable world *)

Section Overlay.

Lemma analyzerOk_same (w w' : World) :
  dom w' = dom w -> clock w' = clock w ->
  scanPhase (analyzer w') = scanPhase (analyzer w) ->
  laserPosition (analyzer w') = laserPosition (analyzer w) ->
  history w' = history w ->
  frameQueue w' = frameQueue w -> timerQueue w' = timerQueue w ->
  analyzerOk w -> analyzerOk w'.
Proof.
  unfold analyzerOk. cbv zeta. intros -> -> -> -> -> -> ->. exact (fun H => H).
Qed.

Lemma steady_aside (c : Cmd) :
  (forall w, dom (c w) = dom w /\ clock (c w) = clock w
             /\ scanPhase (analyzer (c w)) = scanPhase (analyzer w)
             /\ laserPosition (analyzer (c w)) = laserPosition (analyzer w)
             /\ history (c w) = history w
             /\ frameQueue (c w) = frameQueue w /\ timerQueue (c w) = timerQueue w) ->
  steady c.
Proof.
  intros H w Hw. destruct (H w) as (D & C & P & L & Hi & F & T).
  split; [|split]; [|exact C|exact D].
  now apply (analyzerOk_same w).
Qed.

Lemma steady_skip : steady skip.
Proof. intros w H. split; [exact H | split; reflexivity]. Qed.

Lemma steady_andThen (c1 c2 : Cmd) : steady c1 -> steady c2 -> steady (andThen c1 c2).
Proof.
  intros H1 H2 w H. unfold andThen.
  destruct (H1 w H) as (A1 & C1 & D1). destruct (H2 _ A1) as (A2 & C2 & D2).
  split; [exact A2|]. split; congruence.
Qed.

Lemma steady_when (b : bool) (c : Cmd) : steady c -> steady (when b c).
Proof. intro H. destruct b; [exact H | apply steady_skip]. Qed.

Ltac ok_split :=
  split; [|split; reflexivity]; split; [|split; [|split; [|split]]].

Ltac aside :=
  apply steady_aside; let w := fresh "w" in (intro w; open_world w); cmd_norm;
  repeat match goal with
    | |- context [match ?x with _ => _ end] =>
        lazymatch x with
        | context [match _ with _ => _ end] => fail
        | _ => destruct x
        end
    end;
  repeat split.

Lemma steady_set_flags a b : steady (set_flags a b).
Proof. aside. Qed.

Lemma steady_set_nextRun v : steady (set_nextRun v).
Proof. aside. Qed.

Lemma steady_set_committed v : steady (set_committed v).
Proof. aside. Qed.

Lemma steady_handleMessage data : steady (handleMessage data).
Proof. destruct data; aside. Qed.

Lemma steady_handleMouseMove x y : steady (handleMouseMove x y).
Proof. aside. Qed.

Lemma steady_handleClick x y : steady (handleClick x y).
Proof. aside. Qed.

Lemma steady_handleKeyDown key : steady (handleKeyDown key).
Proof. aside. Qed.

Lemma steady_handleContextMenu x y : steady (handleContextMenu x y).
Proof. aside. Qed.

Lemma steady_handleClickOutside b : steady (handleClickOutside b).
Proof. aside. Qed.

Lemma steady_handleEscape key : steady (handleEscape key).
Proof. aside. Qed.

Lemma steady_handleMenuAction action : steady (handleMenuAction action "element").
Proof. aside. Qed.

Lemma steady_sendHeight : steady sendHeight.
Proof. aside. Qed.

Lemma steady_hoverEffect b : steady (hoverEffect b).
Proof. aside. Qed.

Lemma steady_selectionResolveEffect s : steady (selectionResolveEffect s).
Proof. destruct s; aside. Qed.

Lemma steady_analyzerResolveEffect s : steady (analyzerResolveEffect s).
Proof. destruct s; aside. Qed.

Lemma steady_highlightEffect e : steady (highlightEffect e).
Proof. destruct e; aside. Qed.

Lemma steady_renderBridge : steady renderBridge.
Proof. aside. Qed.

Lemma Forall_insertTimer (P : Z * Task -> Prop) due t q :
  P (due, t) -> Forall P q -> Forall P (insertTimer due t q).
Proof.
  intros Ht. induction 1 as [|[d t'] q Hx Hq IH]; simpl.
  - now constructor.
  - destruct (d <=? due); repeat constructor; auto.
Qed.

Lemma steady_setTimeout (t : Task) (delay : Z) :
  (forall h now, taskOk h now t) -> steady (setTimeout t delay).
Proof.
  intros Ht w H. open_world w. unfold analyzerOk in *. cbv zeta in *. simpl in *.
  destruct H as (L & P & N & F & T). ok_split; auto.
  apply Forall_insertTimer; [apply Ht | exact T].
Qed.

Lemma steady_perform (r : nat) (a : Action) : scriptAction a -> steady (perform r a).
Proof.
  intros Ha w H. open_world w. unfold analyzerOk in *. cbv zeta in *.
  destruct H as (L & P & N & F & T). simpl in L, P, N, F, T.
  destruct a as [p| | | |]; simpl in Ha |- *; try contradiction.
  all: rewrite phaseCalls_app; simpl; rewrite ?app_nil_r; ok_split; auto.
  - symmetry. apply last_last.
  - apply Forall_app. split; [exact N|]. constructor; [|constructor].
    destruct p; [contradiction|discriminate..].
Qed.

Lemma perform_laser (r : nat) (pos : Q) (w : World) :
  analyzerOk w ->
  (0 <= innerHeight (dom w) -> (0 <= pos <= inject_Z (innerHeight (dom w)))%Q) ->
  let w' := perform r (setLaserPosition pos) w in
  analyzerOk w' /\ clock w' = clock w /\ dom w' = dom w.
Proof.
  intros H Hp. open_world w. unfold analyzerOk in *. cbv zeta in *.
  destruct H as (L & P & N & F & T). simpl in L, P, N, F, T, Hp. simpl.
  rewrite phaseCalls_app; simpl; rewrite ?app_nil_r. ok_split; auto.
Qed.

Lemma steady_requestAnimationFrame (t : Task) (w : World) :
  analyzerOk w -> taskOk (innerHeight (dom w)) (clock w) t ->
  let w' := requestAnimationFrame t w in
  analyzerOk w' /\ clock w' = clock w /\ dom w' = dom w.
Proof.
  intros H Ht. open_world w. unfold analyzerOk in *. cbv zeta in *.
  destruct H as (L & P & N & F & T). simpl in L, P, N, F, T, Ht. simpl.
  ok_split; auto. apply Forall_app. split; [exact F|]. now constructor.
Qed.

Lemma steady_exec (r : nat) (s : Script) : scriptOk s -> steady (exec r s).
Proof.
  induction s as [dir dur k IH | a k IH | body IHb delay k IH |]; simpl.
  - intros [Hd Hk] w H. unfold animateLaser. cbv zeta.
    apply steady_requestAnimationFrame; [exact H|]. simpl.
    repeat split; auto; [|lia]. destruct dir; auto.
  - intros [Ha Hk]. apply steady_andThen; [now apply steady_perform | now apply IH].
  - intros [Hb Hk]. apply steady_andThen; [|now apply IH].
    apply steady_setTimeout. intros h now. exact Hb.
  - intros _. apply steady_skip.
Qed.

Lemma scriptOk_runAnalyzerSequence (t : option Element) :
  scriptOk (runAnalyzerSequence t).
Proof. destruct t; simpl; repeat split; (lia || discriminate || auto). Qed.

Lemma steady_sequenceEffect (b : bool) (t : option Element) : steady (sequenceEffect b t).
Proof.
  unfold sequenceEffect. destruct (negb b); [apply steady_skip|].
  intros w H. destruct (steady_set_nextRun (S (nextRun w)) w H) as (A & C & D).
  destruct (steady_exec (nextRun w) _ (scriptOk_runAnalyzerSequence t) _ A) as (A' & C' & D').
  split; [exact A'|]. split; congruence.
Qed.

Lemma steady_renderChildren : steady renderChildren.
Proof.
  intros w. unfold renderChildren. cbv zeta.
  match goal with |- _ -> analyzerOk (?c w) /\ _ => cut (steady c); [intro G; apply G|] end.
  repeat lazymatch goal with
    | |- steady (andThen _ _) => apply steady_andThen
    | |- steady (when _ _) => apply steady_when
    | |- steady (set_committed _) => apply steady_set_committed
    | |- steady (hoverEffect _) => apply steady_hoverEffect
    | |- steady (selectionResolveEffect _) => apply steady_selectionResolveEffect
    | |- steady (analyzerResolveEffect _) => apply steady_analyzerResolveEffect
    | |- steady (sequenceEffect _ _) => apply steady_sequenceEffect
    | |- steady (highlightEffect _) => apply steady_highlightEffect
    end.
Qed.

Lemma steady_unlessFailed (c : Cmd) : steady c -> steady (unlessFailed c).
Proof.
  intros H w Hw. unfold unlessFailed.
  destruct (failed w); [split; [exact Hw | split; reflexivity] | now apply H].
Qed.

Lemma steady_flush : steady flush.
Proof.
  unfold flush. apply steady_unlessFailed.
  repeat apply steady_andThen;
    [apply steady_renderBridge | | apply steady_unlessFailed]; apply steady_renderChildren.
Qed.

Lemma steady_task (c : Cmd) : steady c -> steady (task c).
Proof. intro H. apply steady_andThen; [exact H | apply steady_flush]. Qed.

Lemma steady_animateFrame r startPos endPos duration startTime resolve (w : World) :
  analyzerOk w ->
  taskOk (innerHeight (dom w)) (clock w)
    (animate r startPos endPos duration startTime resolve) ->
  let w' := animateFrame r startPos endPos duration startTime resolve w in
  analyzerOk w' /\ clock w' = clock w /\ dom w' = dom w.
Proof.
  intros H Ht. pose proof Ht as (Hp & Hd & Hs & Hk). unfold animateFrame. cbv zeta.
  match goal with |- context [perform r (setLaserPosition ?p) w] =>
    destruct (perform_laser r p w H) as (A & C & D)
  end.
  { intro Hh. apply position_bounds; auto.
    apply ease_bounds, progress_bounds; lia. }
  destruct (negb _).
  - rewrite <- C, <- D in Ht.
    destruct (steady_requestAnimationFrame _ _ A Ht) as (A' & C' & D').
    split; [exact A'|]. split; congruence.
  - destruct (steady_exec r resolve Hk _ A) as (A' & C' & D').
    split; [exact A'|]. split; congruence.
Qed.

Lemma steady_runTask (t : Task) (w : World) :
  analyzerOk w -> taskOk (innerHeight (dom w)) (clock w) t ->
  let w' := task (runTask t) w in
  analyzerOk w' /\ clock w' = clock w /\ dom w' = dom w.
Proof.
  intros H Ht. cbv zeta. unfold task, andThen.
  assert (R : analyzerOk (runTask t w) /\ clock (runTask t w) = clock w
              /\ dom (runTask t w) = dom w).
  { destruct t as [r sp ep dur st k | r body |]; simpl.
    - now apply steady_animateFrame.
    - now apply steady_exec.
    - now apply steady_sendHeight. }
  destruct R as (A & C & D). destruct (steady_flush _ A) as (A' & C' & D').
  split; [exact A'|]. split; congruence.
Qed.

Lemma steady_tasks {A} (f : A -> Task) (l : list A) (w : World) :
  analyzerOk w ->
  Forall (fun x => taskOk (innerHeight (dom w)) (clock w) (f x)) l ->
  analyzerOk (fold_left (fun acc x => task (runTask (f x)) acc) l w)
  /\ dom (fold_left (fun acc x => task (runTask (f x)) acc) l w) = dom w.
Proof.
  revert w. induction l as [|a l IH]; simpl; intros w H Hl; [now split|].
  inversion Hl as [|? ? Ha Hl']; subst.
  destruct (steady_runTask (f a) w H Ha) as (A' & C' & D').
  destruct (IH _ A') as [A2 D2]; [now rewrite C', D'|].
  split; [exact A2 | congruence].
Qed.

Lemma taskOk_later (h now now' : Z) (t : Task) :
  now <= now' -> taskOk h now t -> taskOk h now' t.
Proof.
  intros Hn. destruct t; simpl; auto.
  intros (Hp & Hd & Hs & Hk). repeat split; auto. lia.
Qed.

Lemma analyzerOk_dispatch (e : Event) (w : World) :
  analyzerOk w -> analyzerOk (dispatch e w) /\ dom (dispatch e w) = dom w.
Proof.
  intros H. unfold dispatch.
  destruct (steady_set_flags false false w H) as (H0 & C0 & D0).
  set (w0 := set_flags false false w) in *.
  assert (G : forall c, steady c -> analyzerOk (task c w0) /\ dom (task c w0) = dom w).
  { intros c Hc. destruct (steady_task c Hc w0 H0) as (A & C & D).
    split; [exact A | congruence]. }
  destruct e as [data | x y | x y target | key | x y target | | now | now].
  - apply G, steady_handleMessage.
  - apply G, steady_when, steady_handleMouseMove.
  - apply G, steady_andThen; [apply steady_when, steady_handleClick|].
    intros w' H'. destruct (propagationStopped w'); [split; [exact H' | split; reflexivity]|].
    revert w' H'. apply steady_andThen.
    + destruct target; try apply steady_skip.
      apply steady_when, steady_handleMenuAction.
    + apply steady_when, steady_handleClickOutside.
  - apply G, steady_andThen; apply steady_when;
      [apply steady_handleKeyDown | apply steady_handleEscape].
  - apply G, steady_andThen;
      [apply steady_handleContextMenu | apply steady_when, steady_handleClickOutside].
  - apply G, steady_setTimeout. intros h now. exact I.
  - cbv zeta. clear G.
    set (w1 := set_clock (Z.max (clock w0) now) w0).
    assert (A1 : analyzerOk (set_frameQueue [] w1)
                 /\ Forall (taskOk (innerHeight (dom (set_frameQueue [] w1)))
                              (clock (set_frameQueue [] w1))) (frameQueue w1)
                 /\ dom (set_frameQueue [] w1) = dom w0).
    { subst w1. clearbody w0. clear H C0 D0 w.
      open_world w0. unfold analyzerOk in *. cbv zeta in *.
      destruct H0 as (L & P & N & F & T). simpl in L, P, N, F, T. simpl.
      split; [|split; [|reflexivity]].
      - split; [|split; [|split; [|split]]]; auto.
        eapply Forall_impl; [|exact T]. intros p. apply taskOk_later. lia.
      - eapply Forall_impl; [|exact F]. intros p. apply taskOk_later. lia. }
    destruct A1 as (A1 & F1 & D1).
    destruct (steady_tasks (fun t => t) _ _ A1 F1) as [A2 D2].
    split; [exact A2 | congruence].
  - cbv zeta. clear G.
    set (w1 := set_clock (Z.max (clock w0) now) w0).
    set (due := filter (fun p => fst p <=? clock w1) (timerQueue w1)).
    set (later := filter (fun p => negb (fst p <=? clock w1)) (timerQueue w1)).
    assert (A1 : analyzerOk (set_timerQueue later w1)
                 /\ Forall (fun p => taskOk (innerHeight (dom (set_timerQueue later w1)))
                                       (clock (set_timerQueue later w1)) (snd p)) due
                 /\ dom (set_timerQueue later w1) = dom w0).
    { subst due later w1. clearbody w0. clear H C0 D0 w.
      open_world w0. unfold analyzerOk in *. cbv zeta in *.
      destruct H0 as (L & P & N & F & T). simpl in L, P, N, F, T. simpl.
      assert (T' : Forall (fun p => taskOk (innerHeight d) (Z.max c now) (snd p)) tq).
      { eapply Forall_impl; [|exact T]. intros p. apply taskOk_later. lia. }
      rewrite Forall_forall in T'.
      split; [|split; [|reflexivity]].
      - split; [|split; [|split; [|split]]]; auto.
        + eapply Forall_impl; [|exact F]. intros p. apply taskOk_later. lia.
        + apply Forall_forall. intros p Hin. apply filter_In in Hin. now apply T'.
      - apply Forall_forall. intros p Hin. apply filter_In in Hin. now apply T'. }
    destruct A1 as (A1 & F1 & D1).
    destruct (steady_tasks (fun p : Z * Task => snd p) _ _ A1 F1) as [A2 D2].
    split; [exact A2 | congruence].
Qed.

Lemma analyzerOk_mount (d : Dom) : analyzerOk (mount d).
Proof.
  unfold analyzerOk. cbv zeta. simpl. split; [|split; [|split; [|split]]]; auto.
  - intro H. split; [discriminate|].
    change 0%Q with (inject_Z 0). now rewrite <- Zle_Qle.
  - repeat constructor.
Qed.

Lemma analyzerOk_run (events : list Event) (w : World) :
  analyzerOk w -> analyzerOk (run w events) /\ dom (run w events) = dom w.
Proof.
  revert w. induction events as [|e l IH]; intros w H; [now split|].
  rewrite run_step.
  assert (S1 : analyzerOk (step e w) /\ dom (step e w) = dom w).
  { unfold step, orphaned. destruct (failed w); [|now apply analyzerOk_dispatch].
    destruct e; try (now split); now apply analyzerOk_dispatch. }
  destruct S1 as [A D].
  destruct (IH _ A) as [A' D']. split; [exact A' | congruence].
Qed.



(** X13. The phase the overlay shows is the last phase any run has set,
    and no run ever sets the initial phase 'down': after the first sweep
    of the first analysis the overlay never shows 'down' again, so a later
    analysis begins in the phase the previous one ended in. *)
Theorem phase_is_last_set :
  forall (d : Dom) (events : list Event),
    let w := run (mount d) events in
    scanPhase (analyzer w) = last (phaseCalls (history w)) down
    /\ ~ In down (phaseCalls (history w))
    /\ (phaseCalls (history w) <> [] -> scanPhase (analyzer w) <> down).
Proof.
  intros d events w.
  destruct (analyzerOk_run events (mount d) (analyzerOk_mount d)) as [(_ & P & N & _) _].
  fold w in P, N. rewrite Forall_forall in N.
  split; [exact P|]. split.
  - intro Hin. now apply (N down Hin).
  - intros Hne E. apply (N down); [|reflexivity].
    rewrite <- E, P.
    rewrite (app_removelast_last down Hne) at 2.
    apply in_or_app. right. now left.
Qed.

End Overlay.

(** ** Every run completes once *)

Section Completions.

Lemma completions_app (a b : list Outbound) :
  completions (a ++ b) = (completions a + completions b)%nat.
Proof. unfold completions. now rewrite filter_app, length_app. Qed.

Lemma pending_insertTimer (due : Z) (t : Task) (q : list (Z * Task)) :
  list_sum (map (fun p => pending (snd p)) (insertTimer due t q))
  = (pending t + list_sum (map (fun p => pending (snd p)) q))%nat.
Proof.
  induction q as [|[d t'] q IH]; simpl; [reflexivity|].
  destruct (d <=? due); simpl; [rewrite IH|]; lia.
Qed.

Lemma pending_filter {A} (f : A -> nat) (g : A -> bool) (l : list A) :
  (list_sum (map f (filter g l)) + list_sum (map f (filter (fun x => negb (g x)) l))
   = list_sum (map f l))%nat.
Proof.
  induction l as [|a l IH]; simpl; [reflexivity|].
  destruct (g a); simpl; lia.
Qed.

Lemma balanced_skip : balanced skip.
Proof. intros w. reflexivity. Qed.

Lemma balanced_andThen (c1 c2 : Cmd) :
  balanced c1 -> balanced c2 -> balanced (andThen c1 c2).
Proof.
  intros H1 H2 w. unfold andThen. specialize (H1 w). specialize (H2 (c1 w)). lia.
Qed.

Lemma balanced_when (b : bool) (c : Cmd) : balanced c -> balanced (when b c).
Proof. intro H. destruct b; [exact H | apply balanced_skip]. Qed.

Lemma balanced_aside (c : Cmd) :
  (forall w, completions (outbox (c w)) = completions (outbox w)
             /\ frameQueue (c w) = frameQueue w /\ timerQueue (c w) = timerQueue w
             /\ nextRun (c w) = nextRun w) ->
  balanced c.
Proof.
  intros H w. destruct (H w) as (O & F & T & N).
  unfold accounted. now rewrite O, F, T, N.
Qed.

Ltac even :=
  apply balanced_aside; let w := fresh "w" in (intro w; open_world w); cmd_norm;
  repeat match goal with
    | |- context [match ?x with _ => _ end] =>
        lazymatch x with
        | context [match _ with _ => _ end] => fail
        | _ => destruct x
        end
    end;
  rewrite ?completions_app; cbn [completions filter isCompletion List.length];
  repeat split; lia.

Lemma balanced_set_flags a b : balanced (set_flags a b).
Proof. even. Qed.

Lemma balanced_set_committed v : balanced (set_committed v).
Proof. even. Qed.

Lemma balanced_handleMessage data : balanced (handleMessage data).
Proof. destruct data; even. Qed.

Lemma balanced_handleMouseMove x y : balanced (handleMouseMove x y).
Proof. even. Qed.

Lemma balanced_handleClick x y : balanced (handleClick x y).
Proof. even. Qed.

Lemma balanced_handleKeyDown key : balanced (handleKeyDown key).
Proof. even. Qed.

Lemma balanced_handleContextMenu x y : balanced (handleContextMenu x y).
Proof. even. Qed.

Lemma balanced_handleClickOutside b : balanced (handleClickOutside b).
Proof. even. Qed.

Lemma balanced_handleEscape key : balanced (handleEscape key).
Proof. even. Qed.

Lemma balanced_handleMenuAction action : balanced (handleMenuAction action "element").
Proof. even. Qed.

Lemma balanced_hoverEffect b : balanced (hoverEffect b).
Proof. even. Qed.

Lemma balanced_selectionResolveEffect s : balanced (selectionResolveEffect s).
Proof. destruct s; even. Qed.

Lemma balanced_analyzerResolveEffect s : balanced (analyzerResolveEffect s).
Proof. destruct s; even. Qed.

Lemma balanced_highlightEffect e : balanced (highlightEffect e).
Proof. destruct e; even. Qed.

Lemma balanced_renderBridge : balanced renderBridge.
Proof. even. Qed.

Lemma balanced_measureAndSendHeight : balanced measureAndSendHeight.
Proof.
  intros w. open_world w. unfold accounted. simpl.
  rewrite pending_insertTimer. simpl. lia.
Qed.

Lemma accounted_perform (r : nat) (a : Action) (w : World) :
  accounted (perform r a w)
  = (accounted w + match a with onComplete => 1 | _ => 0 end)%nat
  /\ nextRun (perform r a w) = nextRun w.
Proof.
  open_world w. unfold accounted.
  destruct a; cmd_norm; rewrite ?completions_app; unfold completions; simpl; split; lia.
Qed.

Lemma accounted_requestAnimationFrame (t : Task) (w : World) :
  accounted (requestAnimationFrame t w) = (accounted w + pending t)%nat
  /\ nextRun (requestAnimationFrame t w) = nextRun w.
Proof.
  open_world w. unfold accounted. simpl.
  rewrite map_app, list_sum_app. simpl. split; lia.
Qed.

Lemma accounted_setTimeout (t : Task) (delay : Z) (w : World) :
  accounted (setTimeout t delay w) = (accounted w + pending t)%nat
  /\ nextRun (setTimeout t delay w) = nextRun w.
Proof.
  open_world w. unfold accounted. simpl.
  rewrite pending_insertTimer. split; lia.
Qed.

Lemma accounted_exec (r : nat) (s : Script) (w : World) :
  accounted (exec r s w) = (accounted w + completionsLeft s)%nat
  /\ nextRun (exec r s w) = nextRun w.
Proof.
  revert w. induction s as [dir dur k IH | a k IH | body IHb delay k IH |]; intro w.
  - simpl. unfold animateLaser. cbv zeta. apply accounted_requestAnimationFrame.
  - simpl exec. unfold andThen.
    destruct (accounted_perform r a w) as [A N].
    destruct (IH (perform r a w)) as [A' N'].
    rewrite A', N', A, N. split; [|reflexivity]. destruct a; simpl; lia.
  - simpl exec. unfold andThen.
    destruct (accounted_setTimeout (timeout r body) delay w) as [A N].
    destruct (IH (setTimeout (timeout r body) delay w)) as [A' N'].
    rewrite A', N', A, N. simpl. split; lia.
  - simpl. unfold skip. split; lia.
Qed.

Lemma accounted_runTask (t : Task) (w : World) :
  accounted (runTask t w) = (accounted w + pending t)%nat
  /\ nextRun (runTask t w) = nextRun w.
Proof.
  destruct t as [r sp ep dur st k | r body |]; simpl.
  - unfold animateFrame. cbv zeta.
    match goal with |- context [perform r (setLaserPosition ?p) w] =>
      destruct (accounted_perform r (setLaserPosition p) w) as [A N];
      set (w1 := perform r (setLaserPosition p) w) in *
    end.
    destruct (negb _).
    + destruct (accounted_requestAnimationFrame (animate r sp ep dur st k) w1) as [A' N'].
      rewrite A', N', A, N. simpl. split; lia.
    + destruct (accounted_exec r k w1) as [A' N'].
      rewrite A', N', A, N. split; lia.
  - apply accounted_exec.
  - open_world w. unfold accounted. cmd_norm. rewrite completions_app.
    unfold completions. simpl. split; lia.
Qed.

Lemma balanced_sequenceEffect (b : bool) (t : option Element) :
  balanced (sequenceEffect b t).
Proof.
  unfold sequenceEffect. destruct (negb b); [apply balanced_skip|].
  intros w.
  destruct (accounted_exec (nextRun w) (runAnalyzerSequence t)
              (set_nextRun (S (nextRun w)) w)) as [A N].
  rewrite A, N.
  replace (accounted (set_nextRun (S (nextRun w)) w)) with (accounted w) by now destruct w.
  replace (nextRun (set_nextRun (S (nextRun w)) w)) with (S (nextRun w)) by now destruct w.
  destruct t; simpl; lia.
Qed.

Lemma balanced_renderChildren : balanced renderChildren.
Proof.
  intros w. unfold renderChildren. cbv zeta.
  match goal with |- (accounted (?c w) + _ = _)%nat =>
    cut (balanced c); [intro G; apply G|]
  end.
  repeat lazymatch goal with
    | |- balanced (andThen _ _) => apply balanced_andThen
    | |- balanced (when _ _) => apply balanced_when
    | |- balanced (set_committed _) => apply balanced_set_committed
    | |- balanced (hoverEffect _) => apply balanced_hoverEffect
    | |- balanced (selectionResolveEffect _) => apply balanced_selectionResolveEffect
    | |- balanced (analyzerResolveEffect _) => apply balanced_analyzerResolveEffect
    | |- balanced (sequenceEffect _ _) => apply balanced_sequenceEffect
    | |- balanced (highlightEffect _) => apply balanced_highlightEffect
    end.
Qed.

Lemma balanced_unlessFailed (c : Cmd) : balanced c -> balanced (unlessFailed c).
Proof. intros H w. unfold unlessFailed. destruct (failed w); [reflexivity | apply H]. Qed.

Lemma balanced_flush : balanced flush.
Proof.
  unfold flush. apply balanced_unlessFailed.
  repeat apply balanced_andThen;
    [apply balanced_renderBridge | | apply balanced_unlessFailed];
    apply balanced_renderChildren.
Qed.

Lemma balanced_task (c : Cmd) : balanced c -> balanced (task c).
Proof. intro H. apply balanced_andThen; [exact H | apply balanced_flush]. Qed.

Lemma accounted_tasks {A} (f : A -> Task) (l : list A) (w : World) :
  let w' := fold_left (fun acc x => task (runTask (f x)) acc) l w in
  (accounted w' + nextRun w
   = accounted w + list_sum (map (fun x => pending (f x)) l) + nextRun w')%nat.
Proof.
  cbv zeta. revert w. induction l as [|a l IH]; intro w; simpl; [lia|].
  assert (E : (accounted (task (runTask (f a)) w) + nextRun w
               = accounted w + pending (f a) + nextRun (task (runTask (f a)) w))%nat).
  { unfold task, andThen.
    pose proof (balanced_flush (runTask (f a) w)) as B.
    destruct (accounted_runTask (f a) w) as [A1 N1]. lia. }
  specialize (IH (task (runTask (f a)) w)). lia.
Qed.

Lemma balanced_dispatch (e : Event) : balanced (dispatch e).
Proof.
  intros w. unfold dispatch.
  assert (E0 : accounted (set_flags false false w) = accounted w
               /\ nextRun (set_flags false false w) = nextRun w) by now destruct w.
  destruct E0 as [A0 N0]. rewrite <- A0, <- N0.
  set (w0 := set_flags false false w). clearbody w0. clear A0 N0 w.
  destruct e as [data | x y | x y target | key | x y target | | now | now].
  - apply balanced_task, balanced_handleMessage.
  - apply balanced_task, balanced_when, balanced_handleMouseMove.
  - apply balanced_task, balanced_andThen; [apply balanced_when, balanced_handleClick|].
    intros w'. destruct (propagationStopped w'); [reflexivity|].
    revert w'. apply balanced_andThen.
    + destruct target; try apply balanced_skip.
      apply balanced_when, balanced_handleMenuAction.
    + apply balanced_when, balanced_handleClickOutside.
  - apply balanced_task, balanced_andThen; apply balanced_when;
      [apply balanced_handleKeyDown | apply balanced_handleEscape].
  - apply balanced_task, balanced_andThen;
      [apply balanced_handleContextMenu | apply balanced_when, balanced_handleClickOutside].
  - apply balanced_task, balanced_measureAndSendHeight.
  - cbv zeta.
    set (w1 := set_clock (Z.max (clock w0) now) w0).
    pose proof (accounted_tasks (fun t => t) (frameQueue w1) (set_frameQueue [] w1)) as B.
    cbv beta zeta in B. change (fun x : Task => pending x) with pending in B.
    assert (E : (accounted (set_frameQueue [] w1)
                 + list_sum (map pending (frameQueue w1)) = accounted w0)%nat
                /\ nextRun (set_frameQueue [] w1) = nextRun w0).
    { subst w1. open_world w0. unfold accounted. simpl. split; lia. }
    destruct E as [E1 E2]. rewrite E2 in B. lia.
  - cbv zeta.
    set (w1 := set_clock (Z.max (clock w0) now) w0).
    set (due := filter (fun p => fst p <=? clock w1) (timerQueue w1)).
    set (later := filter (fun p => negb (fst p <=? clock w1)) (timerQueue w1)).
    pose proof (accounted_tasks (fun p : Z * Task => snd p) due (set_timerQueue later w1)) as B.
    cbv beta zeta in B.
    assert (E : (accounted (set_timerQueue later w1)
                 + list_sum (map (fun p => pending (snd p)) due) = accounted w0)%nat
                /\ nextRun (set_timerQueue later w1) = nextRun w0).
    { subst due later w1. open_world w0. unfold accounted. simpl.
      pose proof (pending_filter (fun p : Z * Task => pending (snd p))
                    (fun p => fst p <=? Z.max c now) tq).
      split; lia. }
    destruct E as [E1 E2]. rewrite E2 in B. lia.
Qed.

Lemma accounted_run (events : list Event) (w : World) :
  (accounted (run w events) + nextRun w = accounted w + nextRun (run w events))%nat.
Proof.
  revert w. induction events as [|e l IH]; intro w; [rewrite run_nil; lia|].
  rewrite run_step. specialize (IH (step e w)).
  assert (B : balanced (step e)).
  { intro v. unfold step, orphaned. destruct (failed v); [|apply balanced_dispatch].
    destruct e; try reflexivity; apply balanced_dispatch. }
  specialize (B w). lia.
Qed.

(** X14. Every run of the analyzer sequence reports completion once:
    whatever events the mounted bridge receives, the completion messages
    posted and the completions the queued callbacks have still to make add
    up to the number of runs started. So there are never more completion
    messages than runs, and once no animation frame is queued and no timer
    of a run is left, every run started has posted exactly one. *)
Theorem every_run_completes_once :
  forall (d : Dom) (events : list Event),
    let w := run (mount d) events in
    accounted w = nextRun w
    /\ (completions (outbox w) <= nextRun w)%nat
    /\ (frameQueue w = [] ->
        (forall p, In p (timerQueue w) -> snd p = sendHeight_timeout) ->
        completions (outbox w) = nextRun w).
Proof.
  intros d events w.
  assert (E : accounted w = nextRun w).
  { pose proof (accounted_run events (mount d)) as H. fold w in H.
    change (accounted (mount d)) with 0%nat in H.
    change (nextRun (mount d)) with 0%nat in H. lia. }
  split; [exact E|]. split.
  - unfold accounted in E. lia.
  - intros Hf Ht. unfold accounted in E. rewrite Hf in E. simpl in E.
    assert (Z0 : forall q : list (Z * Task),
               (forall p, In p q -> snd p = sendHeight_timeout) ->
               list_sum (map (fun p => pending (snd p)) q) = 0%nat).
    { induction q as [|p q IH]; intro Hq; simpl; [reflexivity|].
      rewrite (Hq p) by now left. simpl. apply IH. intros p' Hp'. apply Hq. now right. }
    rewrite (Z0 _ Ht) in E. lia.
Qed.

End Completions.
